(** * file2md-demo: the session-scoped temporary-artifact lifecycle

    A shallow embedding of the route handlers of the repository
    (artifact serving, conversion, retention sweep) together with the
    properties their specification states about them.

    Conventions.
    - JavaScript strings are [string]; only the ASCII characters
      [/], [.], [-], digits and letters are ever inspected.
    - JavaScript numbers holding millisecond timestamps are [Z].  Every
      [Date.now()] is an integer below [2^53], where IEEE doubles are
      exact; a parsed timestamp above [2^53] is rounded monotonically and
      stays above every [Date.now()], so each comparison made by the
      handlers has the same outcome on [Z].
    - [path] is Node's POSIX implementation. *)

From Stdlib Require Import Bool List Ascii String ZArith NArith Lia.
From Stdlib Require Import Numbers.DecimalString Numbers.DecimalN.
Import ListNotations.

Open Scope string_scope.
Open Scope Z_scope.

(* ================================================================= *)
(** ** JavaScript strings *)

Module Js.

Definition slash : ascii := "/"%char.
Definition dot : ascii := "."%char.
Definition dash : ascii := "-"%char.

Definition code (c : ascii) : N := N_of_ascii c.

(** [\d] *)
Definition isDigit (c : ascii) : bool :=
  ((48 <=? code c) && (code c <=? 57))%N.

Definition isLower (c : ascii) : bool :=
  ((97 <=? code c) && (code c <=? 122))%N.

Definition isUpper (c : ascii) : bool :=
  ((65 <=? code c) && (code c <=? 90))%N.

(** [[a-zA-Z0-9]] *)
Definition isAlnum (c : ascii) : bool :=
  isLower c || isUpper c || isDigit c.

Fixpoint all (p : ascii -> bool) (s : string) : bool :=
  match s with
  | EmptyString => true
  | String c s' => p c && all p s'
  end.

Definition isEmpty (s : string) : bool :=
  match s with EmptyString => true | _ => false end.

(** [s.startsWith(pre)] *)
Definition startsWith (s pre : string) : bool := String.prefix pre s.

(** [s.includes(sub)] *)
Fixpoint includes (s sub : string) : bool :=
  String.prefix sub s ||
  match s with
  | EmptyString => false
  | String _ s' => includes s' sub
  end.

(** [s.substring(n)] *)
Fixpoint substringFrom (n : nat) (s : string) : string :=
  match n, s with
  | O, _ => s
  | S _, EmptyString => EmptyString
  | S n', String _ s' => substringFrom n' s'
  end.

Definition lowerChar (c : ascii) : ascii :=
  if isUpper c then ascii_of_N (code c + 32) else c.

(** [s.toLowerCase()] on the ASCII range *)
Fixpoint toLowerCase (s : string) : string :=
  match s with
  | EmptyString => EmptyString
  | String c s' => String (lowerChar c) (toLowerCase s')
  end.

(** [s.split(sep)] for a one-character separator: never empty, and
    [split sep ""] is [[""]]. *)
Fixpoint split (sep : ascii) (s : string) : list string :=
  match s with
  | EmptyString => [EmptyString]
  | String c s' =>
      if Ascii.eqb c sep then EmptyString :: split sep s'
      else match split sep s' with
           | [] => [String c EmptyString]
           | seg :: segs => String c seg :: segs
           end
  end.

(** [arr.join(sep)] *)
Definition joinWith (sep : string) (l : list string) : string :=
  String.concat sep l.

Definition digitValue (c : ascii) : Z := Z.of_N (code c) - 48.

Fixpoint parseDigits (acc : Z) (s : string) : Z :=
  match s with
  | EmptyString => acc
  | String c s' =>
      if isDigit c then parseDigits (10 * acc + digitValue c) s' else acc
  end.

(** [parseInt(s)] on strings that start with a decimal digit or not at
    all ([None] is [NaN]).  The handlers only apply it to the digit run
    of an identifier that already passed the format test, so white
    space, signs and the [0x] prefix never reach it. *)
Definition parseInt (s : string) : option Z :=
  match s with
  | EmptyString => None
  | String c _ => if isDigit c then Some (parseDigits 0 s) else None
  end.

(** JavaScript values as far as truthiness is concerned. *)
Inductive value : Type :=
| Undefined
| Str (s : string)
| Boolean (b : bool).

Definition truthy (v : value) : bool :=
  match v with
  | Undefined => false
  | Str s => negb (isEmpty s)
  | Boolean b => b
  end.

(** [a || b] *)
Definition or (a b : value) : value := if truthy a then a else b.

(** [process.env.X] *)
Definition envVar (x : option string) : value :=
  match x with Some s => Str s | None => Undefined end.

End Js.

(* ================================================================= *)
(** ** Node's [path] module (POSIX) *)

Module Path.

Definition sep : string := "/".

Definition isAbsolute (p : string) : bool :=
  match p with
  | String c _ => Ascii.eqb c Js.slash
  | EmptyString => false
  end.

Fixpoint endsWithSlash (p : string) : bool :=
  match p with
  | EmptyString => false
  | String c EmptyString => Ascii.eqb c Js.slash
  | String _ p' => endsWithSlash p'
  end.

(** One step of [normalizeString]: the segments kept so far are a
    stack, last segment first. *)
Definition normStep (allowAboveRoot : bool) (stack : list string)
           (seg : string) : list string :=
  if (seg =? "")%string || (seg =? ".")%string then stack
  else if (seg =? "..")%string then
    match stack with
    | top :: rest =>
        if (top =? "..")%string
        then (if allowAboveRoot then ".." :: stack else stack)
        else rest
    | [] => if allowAboveRoot then [".."] else []
    end
  else seg :: stack.

Definition normSegments (allowAboveRoot : bool) (segs : list string)
  : list string :=
  rev (fold_left (normStep allowAboveRoot) segs []).

(** [normalizeString(path, allowAboveRoot, '/', isPosixPathSeparator)] *)
Definition normalizeString (p : string) (allowAboveRoot : bool) : string :=
  Js.joinWith sep (normSegments allowAboveRoot (Js.split Js.slash p)).

(** [path.normalize] *)
Definition normalize (p : string) : string :=
  if Js.isEmpty p then "."
  else
    let isAbs := isAbsolute p in
    let trailingSeparator := endsWithSlash p in
    let body := normalizeString p (negb isAbs) in
    if Js.isEmpty body then
      (if isAbs then "/" else if trailingSeparator then "./" else ".")
    else
      (if isAbs then "/" else "") ++ body
      ++ (if trailingSeparator then "/" else "").

(** [path.join(...args)] *)
Definition join (args : list string) : string :=
  match filter (fun a => negb (Js.isEmpty a)) args with
  | [] => "."
  | parts => normalize (Js.joinWith sep parts)
  end.

(** [path.resolve(p)] with the process working directory [cwd]. *)
Definition resolve (cwd p : string) : string :=
  let step (acc : string * bool) (arg : string) :=
    let '(resolvedPath, resolvedAbsolute) := acc in
    if resolvedAbsolute || Js.isEmpty arg then acc
    else (arg ++ "/" ++ resolvedPath, isAbsolute arg) in
  let '(resolvedPath, resolvedAbsolute) :=
    fold_left step [p; cwd] (EmptyString, false) in
  let body := normalizeString resolvedPath (negb resolvedAbsolute) in
  if resolvedAbsolute then "/" ++ body
  else if Js.isEmpty body then "." else body.

(** [path.basename(p)]: trailing separators are dropped, then the
    text after the last remaining separator is returned. *)
Definition basename (p : string) : string :=
  last (filter (fun s => negb (Js.isEmpty s)) (Js.split Js.slash p))
       EmptyString.

End Path.

(** Vocabulary for path components. *)
Definition notSlash (c : ascii) : bool := negb (Ascii.eqb c Js.slash).

Definition noSlash (s : string) : bool := Js.all notSlash s.

(** A component that [normalizeString] keeps as it is. *)
Definition plain (s : string) : bool :=
  noSlash s && negb (Js.isEmpty s)
  && negb (s =? ".")%string && negb (s =? "..")%string.

(** The stack of components [normalizeString] has built after reading
    [p]. *)
Definition stackOf (b : bool) (p : string) : list string :=
  fold_left (Path.normStep b) (Js.split Js.slash p) [].

(** Characters of a well-formed session identifier. *)
Definition sessionChar (c : ascii) : bool :=
  Js.isAlnum c || Ascii.eqb c Js.dash.

(** Characters that are neither a separator nor a dot. *)
Definition nameChar (c : ascii) : bool :=
  notSlash c && negb (Ascii.eqb c Js.dot).

(* ================================================================= *)
(** ** Serving an artifact: [src/app/api/serve-image/route.ts] *)

Module Http.

Inductive body : Type :=
| Text (s : string)
| Bytes (b : list Byte.byte).

(** A response: its status and payload.  Headers are left out; no
    decision of a handler depends on them. *)
Record response : Type := mkResponse { status : Z; payload : body }.

Definition reply (code : Z) (msg : string) : response :=
  mkResponse code (Text msg).

End Http.

Module Fs.

(** Calls a handler makes on the file system, in program order. *)
Inductive op : Type :=
| ExistsSync (p : string)
| ReadFile (p : string)
| Readdir (p : string).

(** What the file system answers while one request is handled.
    [readFile] is [None] where the call throws (missing, a directory). *)
Record disk : Type := mkDisk {
  existsSync : string -> bool;
  readFile : string -> option (list Byte.byte)
}.

End Fs.

Record Env : Type := mkEnv {
  VERCEL : option string;       (* process.env.VERCEL *)
  VERCEL_ENV : option string;   (* process.env.VERCEL_ENV *)
  cwd : string                  (* process.cwd() *)
}.

(** [process.env.VERCEL ? '/tmp' : path.join(process.cwd(), 'temp')] *)
Definition tempDirOf (env : Env) : string :=
  if Js.truthy (Js.envVar (VERCEL env)) then "/tmp"
  else Path.join [cwd env; "temp"].

(** [/^\d+-[a-zA-Z0-9]+$/.test(session)] *)
Fixpoint sessionFormatRest (seenDigit : bool) (s : string) : bool :=
  match s with
  | EmptyString => false
  | String c s' =>
      if Js.isDigit c then sessionFormatRest true s'
      else seenDigit && Ascii.eqb c Js.dash
           && negb (Js.isEmpty s') && Js.all Js.isAlnum s'
  end.

Definition sessionFormat (session : string) : bool :=
  sessionFormatRest false session.

(** [parseInt(session.split('-')[0])] *)
Definition sessionTimestamp (session : string) : option Z :=
  Js.parseInt (hd EmptyString (Js.split Js.dash session)).

Definition maxAge : Z := 60 * 60 * 1000.

(** [now - timestamp > maxAge]; any comparison with [NaN] is false. *)
Definition expired (now : Z) (timestamp : option Z) : bool :=
  match timestamp with
  | Some t => now - t >? maxAge
  | None => false
  end.

Record Query : Type := mkQuery {
  q_path : option string;      (* searchParams.get('path') *)
  q_session : option string    (* searchParams.get('session') *)
}.

(** The detached clean-up started for an expired session: it removes
    the directory if it exists, after the response has been returned. *)
Inductive task : Type :=
| CleanupSession (sessionImageDir : string).

Record outcome : Type := mkOutcome {
  response : Http.response;
  trace : list Fs.op;          (* calls awaited before the response *)
  detached : list task         (* fire-and-forget work *)
}.

Definition finish (code : Z) (msg : string) (tr : list Fs.op) : outcome :=
  mkOutcome (Http.reply code msg) tr [].

(** [!v] for a nullable string: true for [null] and for [""]. *)
Definition missing (v : option string) : bool :=
  match v with
  | None => true
  | Some s => Js.isEmpty s
  end.

Definition paramOf (v : option string) : string :=
  match v with Some s => s | None => EmptyString end.

(** Reading the file found and answering with its bytes; a throwing
    [readFile] reaches the outer [catch]. *)
Definition serveFile (fs : Fs.disk) (tr : list Fs.op) (p : string) : outcome :=
  match Fs.readFile fs p with
  | Some bytes =>
      mkOutcome (Http.mkResponse 200 (Http.Bytes bytes))
                (tr ++ [Fs.ReadFile p]) []
  | None => finish 500 "Internal server error" (tr ++ [Fs.ReadFile p])
  end.

Module ServeImage.

(** The loop over [alternativePaths]: the first existing one, and the
    probes made until then. *)
Fixpoint findAlternative (fs : Fs.disk) (alts : list string)
  : option string * list Fs.op :=
  match alts with
  | [] => (None, [])
  | altPath :: rest =>
      if Fs.existsSync fs altPath then (Some altPath, [Fs.ExistsSync altPath])
      else
        let '(found, tr) := findAlternative fs rest in
        (found, Fs.ExistsSync altPath :: tr)
  end.

Definition alternativePaths (tempDir session safePath : string)
  : list string :=
  [ Path.join [tempDir; session ++ "-images"; "images"; safePath];
    Path.join [tempDir; session; "images"; safePath];
    Path.join [tempDir; session; safePath] ].

(** Lines 49-125: the request has a well-formed, unexpired session. *)
Definition resolveAndServe (env : Env) (fs : Fs.disk)
           (session imagePath : string) : outcome :=
  let safePath := Path.basename imagePath in
  if negb (safePath =? imagePath)%string || Js.includes safePath ".." then
    finish 403 "Invalid path" []
  else
    let tempDir := tempDirOf env in
    let fullImagePath :=
      Path.join [tempDir; session ++ "-images"; safePath] in
    (* existsSync is called once for the debug log and once for the test *)
    let tr := [Fs.ExistsSync fullImagePath; Fs.ExistsSync fullImagePath] in
    if negb (Fs.existsSync fs fullImagePath) then
      let '(foundPath, probes) :=
        findAlternative fs (alternativePaths tempDir session safePath) in
      match foundPath with
      | None =>
          finish 404 "Image not found" (tr ++ probes ++ [Fs.Readdir tempDir])
      | Some altPath => serveFile fs (tr ++ probes) altPath
      end
    else serveFile fs tr fullImagePath.

Definition GET (env : Env) (fs : Fs.disk) (now : Z) (q : Query) : outcome :=
  if missing (q_path q) || missing (q_session q) then
    finish 400 "Missing parameters" []
  else
    let imagePath := paramOf (q_path q) in
    let session := paramOf (q_session q) in
    if negb (sessionFormat session) then finish 403 "Invalid session" []
    else if expired now (sessionTimestamp session) then
      let sessionImageDir :=
        Path.join [tempDirOf env; session ++ "-images"] in
      mkOutcome (Http.reply 410 "Session expired") []
                [CleanupSession sessionImageDir]
    else resolveAndServe env fs session imagePath.

End ServeImage.

(** The same handler without the alternate layouts
    ([src/unnamed/part_001]). *)
Module ServeImagePlain.

Definition resolveAndServe (env : Env) (fs : Fs.disk)
           (session imagePath : string) : outcome :=
  let safePath := Path.basename imagePath in
  if negb (safePath =? imagePath)%string || Js.includes safePath ".." then
    finish 403 "Invalid path" []
  else
    let tempDir := tempDirOf env in
    let fullImagePath :=
      Path.join [tempDir; session ++ "-images"; safePath] in
    if negb (Fs.existsSync fs fullImagePath) then
      finish 404 "Image not found" [Fs.ExistsSync fullImagePath]
    else serveFile fs [Fs.ExistsSync fullImagePath] fullImagePath.

Definition GET (env : Env) (fs : Fs.disk) (now : Z) (q : Query) : outcome :=
  if missing (q_path q) || missing (q_session q) then
    finish 400 "Missing parameters" []
  else
    let imagePath := paramOf (q_path q) in
    let session := paramOf (q_session q) in
    if negb (sessionFormat session) then finish 403 "Invalid session" []
    else if expired now (sessionTimestamp session) then
      let sessionImageDir :=
        Path.join [tempDirOf env; session ++ "-images"] in
      mkOutcome (Http.reply 410 "Session expired") []
                [CleanupSession sessionImageDir]
    else resolveAndServe env fs session imagePath.

End ServeImagePlain.

(* ================================================================= *)
(** ** Numbers as text *)

Module Num.

(** [`${n}`] for a non-negative integer below [10^21]. *)
Definition toDecimal (n : N) : string :=
  NilZero.string_of_uint (N.to_uint n).

(** A number in the half-open unit interval, as [Math.random()]
    returns it: the dyadic fraction [mant / 2^expo]. *)
Record fraction : Type := mkFraction {
  mant : N;
  expo : N;
  in_unit : (mant <? 2 ^ expo)%N = true
}.

Definition digits36 : list ascii :=
  list_ascii_of_string "0123456789abcdefghijklmnopqrstuvwxyz".

(** [chars[digit]] *)
Definition digitChar (d : N) : ascii := nth (N.to_nat d) digits36 "0"%char.

(** Back-tracing the digits written so far (last digit first) when
    rounding up carries over; [true] when the carry reaches the
    integer part. *)
Fixpoint carryOver (written : list N) : bool * list N :=
  match written with
  | [] => (true, [])
  | d :: rest =>
      if (d + 1 <? 36)%N then (false, (d + 1)%N :: rest)
      else carryOver rest
  end.

(** The result of an arithmetic operation on doubles, on numerators over
    a fixed power of two: the exact result rounded to the nearest
    number of 53 significant bits, ties to the even one.  The unit is
    never finer than the smallest denormal and the values stay far
    below the largest double, so the 53 bits are the only limit. *)
Definition roundDouble (n : N) : N :=
  let bits := (N.log2 n + 1)%N in
  if (bits <=? 53)%N then n
  else
    let s := (bits - 53)%N in
    let q := (n / 2 ^ s)%N in
    let r := (n mod 2 ^ s)%N in
    let half := (2 ^ (s - 1))%N in
    if ((half <? r) || ((r =? half) && N.odd q))%N
    then ((q + 1) * 2 ^ s)%N
    else (q * 2 ^ s)%N.

(** The digit loop of the engine's radix conversion
    ([DoubleToRadixCString] in V8), on numerators over [2^D]:
    [frac] is the part still to print, [delta] half the distance to
    the next double.  The two products and the sum are rounded as the
    engine's double arithmetic rounds them; taking the digit off
    [frac] is exact.  The fuel [D + 1] is never used up: [delta] grows
    36-fold at each turn while [frac] stays below [2^D]. *)
Fixpoint fractionDigits (fuel : nat) (D frac delta : N) (written : list N)
  : bool * list N :=
  match fuel with
  | O => (false, written)
  | S fuel' =>
      let frac1 := roundDouble (36 * frac) in
      let delta1 := roundDouble (36 * delta) in
      let digit := (frac1 / 2 ^ D)%N in
      let frac2 := (frac1 mod 2 ^ D)%N in
      let written1 := digit :: written in
      let half := (2 ^ (D - 1))%N in
      if ((half <? frac2) || ((frac2 =? half) && N.odd digit))%N
         && (2 ^ D <? roundDouble (frac2 + delta1))%N
      then carryOver written1
      else if (delta1 <=? frac2)%N
           then fractionDigits fuel' D frac2 delta1 written1
           else (false, written1)
  end.

(** [x.toString(36)] for [x] in the unit interval. *)
Definition toString36 (x : fraction) : string :=
  let m := mant x in
  let e := expo x in
  (* delta = max(minDenormal, ulp / 2) = 2^-k *)
  let k := N.min (e - N.log2 m + 53) 1074 in
  let D := N.max e k in
  let frac := (m * 2 ^ (D - e))%N in
  let delta := (2 ^ (D - k))%N in
  if (delta <=? frac)%N then
    let '(carry, written) :=
      fractionDigits (S (N.to_nat D)) D frac delta [] in
    (if carry then "1" else "0")
    ++ match written with
       | [] => ""
       | _ => "." ++ string_of_list_ascii (map digitChar (rev written))
       end
  else "0".

End Num.

(* ================================================================= *)
(** ** Conversion: [src/app/api/convert/route.ts] and its serverless
       version [src/unnamed/part_002] *)

(** [Math.random().toString(36).substring(2)] *)
Definition randomSuffix (r : Num.fraction) : string :=
  Js.substringFrom 2 (Num.toString36 r).

(** [`${Date.now()}-${Math.random().toString(36).substring(2)}`] *)
Definition fileId (now : N) (r : Num.fraction) : string :=
  Num.toDecimal now ++ "-" ++ randomSuffix r.

(** The alphabet of radix 36: digits and lower-case letters. *)
Definition radix36Char (c : ascii) : bool := Js.isDigit c || Js.isLower c.

Module Convert.

(** A multipart form field: text or an uploaded file. *)
Inductive formValue : Type :=
| FormString (s : string)
| FormFile.

Record Form : Type := mkForm {
  f_preserveLayout : option formValue;
  f_extractImages : option formValue;
  f_extractCharts : option formValue
}.

(** [(formData.get(k) as string | null)?.toLowerCase?.()];
    [None] is [undefined]. *)
Definition lowered (v : option formValue) : option string :=
  match v with
  | Some (FormString s) => Some (Js.toLowerCase s)
  | Some FormFile => None
  | None => None
  end.

(** [... === 'true'] *)
Definition isTrue (v : option formValue) : bool :=
  match lowered v with
  | Some s => (s =? "true")%string
  | None => false
  end.

(** [... !== 'false'] *)
Definition notFalse (v : option formValue) : bool :=
  match lowered v with
  | Some s => negb (s =? "false")%string
  | None => true
  end.

(** [a || b] on booleans *)
Definition orElse (a b : bool) : bool := if a then a else b.

(** The options object handed to the external [convert]. *)
Record Options : Type := mkOptions {
  imageDir : string;
  outputDir : string;
  preserveLayout : bool;
  extractImages : bool;
  extractCharts : bool
}.

Definition convertOptions (tempDir fileId : string) (form : Form) : Options :=
  let preserveLayoutFlag := isTrue (f_preserveLayout form) in
  let extractImagesFlag := notFalse (f_extractImages form) in
  let extractChartsFlag := notFalse (f_extractCharts form) in
  let imageDir := Path.join [tempDir; fileId ++ "-images"] in
  {| imageDir := imageDir;
     outputDir := imageDir;
     preserveLayout := orElse preserveLayoutFlag true;
     extractImages := extractImagesFlag;
     extractCharts := extractChartsFlag |}.

(** *** The archive packager [createZipFile] *)

Record Image : Type := mkImage {
  savedPath : option string   (* [None]: not a string at run time *)
}.

Inductive logLine : Type :=
| PathCheckInfo (name normalizedImagePath normalizedImageDir : string)
                (startsWithExpected equalsExpected : bool)
| PathCheckFailed (normalizedImagePath normalizedImageDir : string)
| AddedToZip (name : string).

(** What the body of the promise does before it returns. *)
Inductive call : Type :=
| CreateWriteStream (zipPath : string)
| Pipe
| Append (content name : string)     (* archive.append(content, {name}) *)
| AddFile (source name : string)     (* archive.file(source, {name}) *)
| Console (l : logLine)
| Finalize.

Definition pathCheckPasses (normalizedImagePath normalizedImageDir : string)
  : bool :=
  Js.startsWith normalizedImagePath (normalizedImageDir ++ Path.sep)
  || (normalizedImagePath =? normalizedImageDir)%string
  || Js.startsWith normalizedImagePath normalizedImageDir.

(** One turn of the loop over [images]. *)
Definition addImage (cwd imageDir : string) (image : Image) : list call :=
  let savedPath :=
    match savedPath image with Some s => s | None => EmptyString end in
  let absImagePath := Path.resolve cwd savedPath in
  let absImageDir := Path.resolve cwd imageDir in
  let normalizedImagePath := Path.normalize absImagePath in
  let normalizedImageDir := Path.normalize absImageDir in
  let imageName := Path.basename absImagePath in
  [Console (PathCheckInfo imageName normalizedImagePath normalizedImageDir
              (Js.startsWith normalizedImagePath
                             (normalizedImageDir ++ Path.sep))
              (normalizedImagePath =? normalizedImageDir)%string)]
  ++ (if pathCheckPasses normalizedImagePath normalizedImageDir then []
      else [Console (PathCheckFailed normalizedImagePath normalizedImageDir)])
  ++ [AddFile absImagePath ("images/" ++ imageName);
      Console (AddedToZip imageName)].

Definition queueEntries (cwd zipPath markdown originalName : string)
           (images : list Image) (imageDir : string) : list call :=
  [CreateWriteStream zipPath; Pipe; Append markdown (originalName ++ ".md")]
  ++ flat_map (addImage cwd imageDir) images
  ++ [Finalize].

(** The entries of the archive among the calls. *)
Definition isEntry (c : call) : bool :=
  match c with
  | Append _ _ | AddFile _ _ => true
  | _ => false
  end.








End Convert.

Module ConvertServerless.

(** [process.env.VERCEL || process.env.VERCEL_ENV
     || !existsSync(path.join(process.cwd(), 'public')) || true] *)
Definition shouldUseBase64 (env : Env) (fs : Fs.disk) : Js.value :=
  Js.or (Js.or (Js.or (Js.envVar (VERCEL env)) (Js.envVar (VERCEL_ENV env)))
               (Js.Boolean
                  (negb (Fs.existsSync fs (Path.join [cwd env; "public"])))))
        (Js.Boolean true).

Inductive mode : Type := Inline | Disk.

(** [if (shouldUseBase64) { ...data URL... } else { ...write file... }] *)
Definition outputMode (env : Env) (fs : Fs.disk) : mode :=
  if Js.truthy (shouldUseBase64 env fs) then Inline else Disk.

(** The selection policy in the words of the specification: inline
    when the environment signals a serverless context or the public
    directory is absent, disk otherwise. *)
Definition specifiedMode (env : Env) (fs : Fs.disk) : mode :=
  if Js.truthy (Js.envVar (VERCEL env))
     || Js.truthy (Js.envVar (VERCEL_ENV env))
     || negb (Fs.existsSync fs (Path.join [cwd env; "public"]))
  then Inline else Disk.

End ConvertServerless.

(* ================================================================= *)
(** ** The retention sweep: [src/unnamed/part_000] *)

Module Cleanup.

Definition CLEANUP_AGE_MS : Z := 60 * 60 * 1000.

Inductive kind : Type :=
| RegularFile
| Directory
| DanglingLink.   (* a symbolic link whose target is gone *)

Record node : Type := mkNode {
  mtime : Z;        (* stats.mtime.getTime() *)
  nodeKind : kind;
  locked : bool     (* removal is refused: EPERM, EBUSY, ... *)
}.

(** The children of the directory being swept, in [readdir] order.
    [path.join(dirPath, file)] names the child [file]. *)
Definition directory : Type := list (string * node).

Inductive result (A : Type) : Type :=
| Ok (a : A)
| Throw.
Arguments Ok {A} a.
Arguments Throw {A}.

Fixpoint lookup (file : string) (d : directory) : option node :=
  match d with
  | [] => None
  | (name, n) :: rest =>
      if (name =? file)%string then Some n else lookup file rest
  end.

Definition remove (file : string) (d : directory) : directory :=
  filter (fun entry => negb (fst entry =? file)%string) d.

(** [await readdir(dirPath)] *)
Definition readdir (d : directory) : list string := map fst d.

(** [await stat(filePath)]: follows links, so it throws on a dangling
    one, as on a missing entry. *)
Definition stat (file : string) (d : directory) : result Z :=
  match lookup file d with
  | Some n =>
      match nodeKind n with
      | DanglingLink => Throw
      | _ => Ok (mtime n)
      end
  | None => Throw
  end.

(** [await unlink(filePath)]: throws on a directory. *)
Definition unlink (file : string) (d : directory) : result directory :=
  match lookup file d with
  | Some n =>
      match nodeKind n with
      | Directory => Throw
      | _ => if locked n then Throw else Ok (remove file d)
      end
  | None => Throw
  end.

(** [await rm(filePath, { recursive: true, force: true })]: a missing
    target is not an error. *)
Definition rm (file : string) (d : directory) : result directory :=
  match lookup file d with
  | Some n => if locked n then Throw else Ok (remove file d)
  | None => Ok d
  end.

(** The [for] loop of [cleanDirectory]; a throwing [stat] leaves the
    loop through the outer [catch] with the count reached so far. *)
Fixpoint sweep (now : Z) (files : list string) (d : directory)
         (cleaned : nat) : nat * directory :=
  match files with
  | [] => (cleaned, d)
  | file :: rest =>
      match stat file d with
      | Throw => (cleaned, d)
      | Ok modified =>
          if now - modified >? CLEANUP_AGE_MS then
            match unlink file d with
            | Ok d' => sweep now rest d' (S cleaned)
            | Throw =>
                match rm file d with
                | Ok d' => sweep now rest d' (S cleaned)
                | Throw => sweep now rest d cleaned
                end
            end
          else sweep now rest d cleaned
      end
  end.

Definition cleanDirectory (now : Z) (d : directory) : nat * directory :=
  sweep now (readdir d) d 0.

(** The two directories [POST] sweeps; [None] where [existsSync] is
    false. *)
Record world : Type := mkWorld {
  downloadsDir : option directory;
  tempDir : option directory
}.

Definition cleanIfExists (now : Z) (d : option directory)
  : nat * option directory :=
  match d with
  | Some dir =>
      let '(n, dir') := cleanDirectory now dir in (n, Some dir')
  | None => (O, None)
  end.

(** [POST]: the count reported in ["Cleaned up N old files"]. *)
Definition POST (now : Z) (w : world) : nat * world :=
  let '(n1, downloads') := cleanIfExists now (downloadsDir w) in
  let '(n2, temp') := cleanIfExists now (tempDir w) in
  ((n1 + n2)%nat, mkWorld downloads' temp').

(** Removal of [file] fails both ways. *)
Definition cannotRemove (file : string) (d : directory) : Prop :=
  unlink file d = Throw /\ rm file d = Throw.

(** An entry past the retention window whose removal is not refused. *)
Definition reclaimable (now : Z) (entry : string * node) : bool :=
  (now - mtime (snd entry) >? CLEANUP_AGE_MS) && negb (locked (snd entry)).

(** Every entry can be examined by [stat]. *)
Definition allVisible (d : directory) : Prop :=
  forall entry, In entry d -> nodeKind (snd entry) <> DanglingLink.

End Cleanup.



(** The directory the converter fills and the handler serves from
    first: [path.join(tempDir, `${session}-images`)]. *)
Definition sessionImageDir (env : Env) (session : string) : string :=
  Path.join [tempDirOf env; session ++ "-images"].



(** The number a decimal numeral denotes, as the standard library
    reads it ([0] for a text that is no numeral). *)
Definition decimalValue (ds : string) : Z :=
  match NilEmpty.uint_of_string ds with
  | Some u => Z.of_N (N.of_uint u)
  | None => 0
  end.


(** The request carries both parameters, a well-formed session and is
    not expired: it reaches the path check. *)
Definition reachesPathCheck (now : Z) (q : Query) : Prop :=
  missing (q_path q) = false /\ missing (q_session q) = false
  /\ sessionFormat (paramOf (q_session q)) = true
  /\ expired now (sessionTimestamp (paramOf (q_session q))) = false.

(* ================================================================= *)
(** ** Upload validation and naming: the head of [POST] in
       [src/app/api/convert/route.ts] *)

Module Upload.

(** A [File] of the form data. *)
Record File : Type := mkFile {
  name : string;
  type : string;    (* MIME type, [""] when the browser knows none *)
  size : Z
}.

(** [formData.get('file')]: [null], a text value, or a file. *)
Inductive field : Type :=
| Absent
| TextField (s : string)
| FileField (f : File).

Definition allowedTypes : list string :=
  [ "application/pdf";
    "application/vnd.openxmlformats-officedocument.wordprocessingml.document";
    "application/vnd.openxmlformats-officedocument.spreadsheetml.sheet";
    "application/vnd.openxmlformats-officedocument.presentationml.presentation";
    "application/x-hwp";
    "application/x-hwpx";
    "application/x-cfb";
    "application/zip" ].

Definition allowedExts : list string :=
  [".pdf"; ".docx"; ".pptx"; ".xlsx"; ".hwp"; ".hwpx"].

Definition MAX_SIZE : Z := 50 * 1024 * 1024.

(** [arr.includes(s)] *)
Definition includes (l : list string) (s : string) : bool :=
  existsb (String.eqb s) l.

Fixpoint lastIndexFrom (c : ascii) (i : Z) (s : string) (found : Z) : Z :=
  match s with
  | EmptyString => found
  | String x s' =>
      lastIndexFrom c (i + 1) s' (if Ascii.eqb x c then i else found)
  end.

(** [s.lastIndexOf(c)]: [-1] when [c] does not occur. *)
Definition lastIndexOf (c : ascii) (s : string) : Z :=
  lastIndexFrom c 0 s (-1).

(** [s.slice(start)]: a negative [start] counts from the end. *)
Definition slice (s : string) (start : Z) : string :=
  let len := Z.of_nat (String.length s) in
  let from := if start <? 0 then Z.max (len + start) 0 else start in
  Js.substringFrom (Z.to_nat from) s.

(** [nameLower.slice(nameLower.lastIndexOf('.'))] *)
Definition extensionOf (fileName : string) : string :=
  let nameLower := Js.toLowerCase fileName in
  slice nameLower (lastIndexOf Js.dot nameLower).

(** Primary by MIME, fallback to extension. *)
Definition isAllowed (mime fileName : string) : bool :=
  (negb (Js.isEmpty mime) && includes allowedTypes mime)
  || includes allowedExts (extensionOf fileName).

Inductive verdict : Type :=
| Rejected (status : Z) (error : string)
| Accepted (f : File).

(** Lines 22-62: the checks made before anything is written.  A text
    value has neither [size], [type] nor [name]: the size and MIME tests
    fail on [undefined] and the extension of the missing name is [""],
    which is not in the list. *)
Definition validate (file : field) : verdict :=
  match file with
  | Absent => Rejected 400 "No file provided"
  | TextField s =>
      if Js.isEmpty s then Rejected 400 "No file provided"
      else Rejected 400 "Unsupported file type"
  | FileField f =>
      if size f >? MAX_SIZE then Rejected 413 "File too large. Max 50MB."
      else if isAllowed (type f) (name f) then Accepted f
      else Rejected 400 "Unsupported file type"
  end.

(** [[a-zA-Z0-9.-]] *)
Definition safeChar (c : ascii) : bool :=
  Js.isAlnum c || Ascii.eqb c Js.dot || Ascii.eqb c Js.dash.

(** [file.name.replace(/[^a-zA-Z0-9.-]/g, '_')] *)
Fixpoint sanitize (s : string) : string :=
  match s with
  | EmptyString => EmptyString
  | String c s' =>
      String (if safeChar c then c else "_"%char) (sanitize s')
  end.

(** [[^/.]] *)
Definition extensionChar (c : ascii) : bool :=
  negb (Ascii.eqb c Js.slash) && negb (Ascii.eqb c Js.dot).

(** [s.replace(/\.[^/.]+$/, '')]: the leftmost dot that is followed, up
    to the end, by one or more characters other than [/] and [.] is cut
    off with what follows it. *)
Fixpoint stripExtension (s : string) : string :=
  match s with
  | EmptyString => EmptyString
  | String c s' =>
      if Ascii.eqb c Js.dot && negb (Js.isEmpty s') && Js.all extensionChar s'
      then EmptyString
      else String c (stripExtension s')
  end.

Definition sanitizedFileName (f : File) : string := sanitize (name f).

Definition originalName (f : File) : string :=
  stripExtension (sanitizedFileName f).

(** [path.join(tempDir, `${fileId}-${sanitizedFileName}`)] *)
Definition tempFilePath (tempDir fileId : string) (f : File) : string :=
  Path.join [tempDir; fileId ++ "-" ++ sanitizedFileName f].



End Upload.

(** A text without a dot. *)
Definition noDot (s : string) : bool :=
  Js.all (fun c => negb (Ascii.eqb c Js.dot)) s.

(** The characters a sanitized file name is made of. *)
Definition sanitizedChar (c : ascii) : bool :=
  Upload.safeChar c || Ascii.eqb c "_"%char.

(* ================================================================= *)
(** ** The form the page submits: [handleConvert] in
       [src/app/page.tsx] *)

Module Page.

(** [String(b)] *)
Definition stringOfBool (b : bool) : string := if b then "true" else "false".

(** The three flags appended to the form data; [extractImages] is the
    state of the check box. *)
Definition handleConvert (extractImages : bool) : Convert.Form :=
  Convert.mkForm (Some (Convert.FormString (stringOfBool true)))
                 (Some (Convert.FormString (stringOfBool extractImages)))
                 (Some (Convert.FormString (stringOfBool true))).

End Page.

(* ================================================================= *)
(** ** Removing the staged files: [cleanupTempFiles] *)

Module TempFiles.

(** The entries of the temporary directory, by path. *)
Definition store : Type := Cleanup.directory.

(** [existsSync(p)]: false when [stat] fails. *)
Definition existsSync (p : string) (d : store) : bool :=
  match Cleanup.stat p d with
  | Cleanup.Ok _ => true
  | Cleanup.Throw => false
  end.

(** The body of the [try]: the staged file is unlinked if it exists,
    then the image directory is removed if it exists; the first call
    that throws ends the body. *)
Definition removeBoth (tempFilePath imageDir : string) (d : store)
  : Cleanup.result store * store :=
  let afterUnlink :=
    if existsSync tempFilePath d then Cleanup.unlink tempFilePath d
    else Cleanup.Ok d in
  match afterUnlink with
  | Cleanup.Throw => (Cleanup.Throw, d)
  | Cleanup.Ok d1 =>
      if existsSync imageDir d1 then
        match Cleanup.rm imageDir d1 with
        | Cleanup.Ok d2 => (Cleanup.Ok d2, d2)
        | Cleanup.Throw => (Cleanup.Throw, d1)
        end
      else (Cleanup.Ok d1, d1)
  end.

(** [cleanupTempFiles]: whatever is thrown is caught; the store is as
    the body left it. *)
Definition cleanupTempFiles (tempFilePath imageDir : string) (d : store)
  : store :=
  snd (removeBoth tempFilePath imageDir d).

End TempFiles.

(* ================================================================= *)
(** ** The opportunistic trigger: [src/middleware.ts] *)

Module Middleware.

Definition CLEANUP_INTERVAL : Z := 30 * 60 * 1000.

(** One request at time [now], with the module variable [lastCleanup]:
    whether the clean-up request is sent, and the new [lastCleanup]. *)
Definition middleware (now lastCleanup : Z) : bool * Z :=
  if now - lastCleanup >? CLEANUP_INTERVAL then (true, now)
  else (false, lastCleanup).

(** The requests of one process in order of arrival: the times at
    which the clean-up was triggered, and the final [lastCleanup]. *)
Fixpoint serve (times : list Z) (lastCleanup : Z) : list Z * Z :=
  match times with
  | [] => ([], lastCleanup)
  | now :: rest =>
      let '(fired, last1) := middleware now lastCleanup in
      let '(triggers, last2) := serve rest last1 in
      ((if fired then now :: triggers else triggers), last2)
  end.

(** Successive elements are more than [gap] apart. *)
Fixpoint spaced (gap : Z) (l : list Z) : bool :=
  match l with
  | a :: ((b :: _) as rest) => (b - a >? gap) && spaced gap rest
  | _ => true
  end.

End Middleware.

(* ================================================================= *)
(** ** Content type of a served image: the tail of [GET] *)

Module ContentType.

(** [path.extname(p)]: from the last dot of the base name to its end;
    empty when the base name has no dot, begins with its only dot, or
    is [..]. *)
Definition extname (p : string) : string :=
  let base := Path.basename p in
  let at_ := Upload.lastIndexOf Js.dot base in
  if (at_ <=? 0) || (base =? "..")%string then EmptyString
  else Upload.slice base at_.

(** Lines 112-117 of [serve-image/route.ts]. *)
Definition contentType (safePath : string) : string :=
  let ext := Js.toLowerCase (extname safePath) in
  if (ext =? ".jpg")%string || (ext =? ".jpeg")%string then "image/jpeg"
  else if (ext =? ".gif")%string then "image/gif"
  else if (ext =? ".webp")%string then "image/webp"
  else "image/png".

End ContentType.

(* ================================================================= *)
(** ** [escapeRegExp] of [src/unnamed/part_002] *)

Module RegExp.

(** The class [[.*+?^${}()|[\]\\]]. *)
Definition special (c : ascii) : bool :=
  existsb (Ascii.eqb c)
          (list_ascii_of_string ".*+?^${}()|[]\").

(** [string.replace(/[.*+?^${}()|[\]\\]/g, '\\$&')] *)
Fixpoint escapeRegExp (s : string) : string :=
  match s with
  | EmptyString => EmptyString
  | String c s' =>
      if special c then String "\"%char (String c (escapeRegExp s'))
      else String c (escapeRegExp s')
  end.

(** Reading an escaped text back: a backslash stands for the character
    after it. *)
Fixpoint unescapeFrom (escaped : bool) (s : string) : string :=
  match s with
  | EmptyString => EmptyString
  | String c s' =>
      if escaped then String c (unescapeFrom false s')
      else if Ascii.eqb c "\"%char then unescapeFrom true s'
      else String c (unescapeFrom false s')
  end.

Definition unescape (s : string) : string := unescapeFrom false s.

End RegExp.

(* ================================================================= *)
(** ** Inputs used in the examples *)

(** [Math.random()] returning one half and zero. *)
Definition oneHalf : Num.fraction := Num.mkFraction 1 1 eq_refl.
Definition zeroFraction : Num.fraction := Num.mkFraction 0 0 eq_refl.

(** [2654435769 / 2^32], about 0.618: a fraction short enough for every
    product of the digit loop to be exact in double arithmetic. *)
Definition typicalFraction : Num.fraction :=
  Num.mkFraction 2654435769 32 eq_refl.

(** [2714003434641221 / 2^52], about 0.603: all 52 bits in use, so the
    products of the digit loop are rounded. *)
Definition denseFraction : Num.fraction :=
  Num.mkFraction 2714003434641221 52 eq_refl.

Definition localEnv : Env :=
  {| VERCEL := None; VERCEL_ENV := None; cwd := "/srv/app" |}.

(** A disk holding one extracted image of session [1755063487275-lv57mqx7xzd]
    and the project's [public] directory. *)
Definition sampleDisk : Fs.disk :=
  {| Fs.existsSync := fun p =>
       (p =? "/srv/app/temp/1755063487275-lv57mqx7xzd-images/image_1.png")%string
       || (p =? "/srv/app/public")%string;
     Fs.readFile := fun p =>
       if (p =? "/srv/app/temp/1755063487275-lv57mqx7xzd-images/image_1.png")%string
       then Some [Byte.x89; Byte.x50; Byte.x4e; Byte.x47] else None |}.

Definition sampleSession : string := "1755063487275-lv57mqx7xzd".

(** One second after the session was created. *)
Definition sampleNow : Z := 1755063488275.

(* ================================================================= *)
(** * Properties *)

(** ** Sanity checks of the string and path model *)

Example split_ex : Js.split Js.slash "/a//b/" = [""; "a"; ""; "b"; ""].
Proof. reflexivity. Qed.

Example normalize_ex1 : Path.normalize "/tmp/../a/./b//c/" = "/a/b/c/".
Proof. reflexivity. Qed.

Example normalize_ex2 : Path.normalize "../x/../../y" = "../../y".
Proof. reflexivity. Qed.

Example join_ex : Path.join ["/srv/app"; "temp"; "17-ab-images"; "p.png"]
                  = "/srv/app/temp/17-ab-images/p.png".
Proof. reflexivity. Qed.

Example resolve_ex : Path.resolve "/srv/app" "temp/../x/y.png/" = "/srv/app/x/y.png".
Proof. reflexivity. Qed.

Example resolve_ex2 : Path.resolve "/srv/app" "" = "/srv/app".
Proof. reflexivity. Qed.

Example basename_ex : Path.basename "../../etc/passwd" = "passwd"
                      /\ Path.basename "a/b//" = "b"
                      /\ Path.basename "//" = "".
Proof. repeat split; reflexivity. Qed.

(** ** Strings *)

Lemma append_assoc (a b c : string) : (a ++ b) ++ c = a ++ (b ++ c).
Proof. induction a as [|x a IH]; simpl; [reflexivity | now rewrite IH]. Qed.

Lemma append_empty_r (a : string) : a ++ "" = a.
Proof. induction a as [|x a IH]; simpl; [reflexivity | now rewrite IH]. Qed.

Lemma isEmpty_true (s : string) : Js.isEmpty s = true <-> s = "".
Proof. destruct s; simpl; split; congruence. Qed.

Lemma isEmpty_false (s : string) : Js.isEmpty s = false <-> s <> "".
Proof. destruct s; simpl; split; congruence. Qed.

Lemma isEmpty_append_r (a b : string) :
  Js.isEmpty b = false -> Js.isEmpty (a ++ b) = false.
Proof. destruct a; simpl; auto. Qed.

Lemma prefix_append (a b : string) : String.prefix a (a ++ b) = true.
Proof.
  induction a as [|x a IH]; simpl.
  - now destruct b.
  - destruct (ascii_dec x x); [exact IH | congruence].
Qed.


Lemma all_append (p : ascii -> bool) (a b : string) :
  Js.all p (a ++ b) = Js.all p a && Js.all p b.
Proof.
  induction a as [|x a IH]; simpl; [reflexivity|].
  now rewrite IH, andb_assoc.
Qed.

Lemma all_impl (p q : ascii -> bool) (s : string) :
  (forall c, p c = true -> q c = true) ->
  Js.all p s = true -> Js.all q s = true.
Proof.
  intros Hpq. induction s as [|x s IH]; simpl; [reflexivity|].
  intros H. apply andb_true_iff in H as [H1 H2].
  now rewrite (Hpq _ H1), IH.
Qed.

(** ** Path components *)

Lemma split_not_nil (sep : ascii) (s : string) : Js.split sep s <> [].
Proof.
  induction s as [|c s IH]; simpl; [discriminate|].
  destruct (Ascii.eqb c sep); [discriminate|].
  destruct (Js.split sep s); discriminate.
Qed.

Lemma split_append_sep (sep : ascii) (x y : string) :
  Js.split sep (x ++ String sep y) = (Js.split sep x ++ Js.split sep y)%list.
Proof.
  induction x as [|c x IH]; simpl.
  - now rewrite Ascii.eqb_refl.
  - destruct (Ascii.eqb c sep); [now rewrite IH|].
    rewrite IH.
    destruct (Js.split sep x) eqn:E; [now apply split_not_nil in E|reflexivity].
Qed.

Lemma split_noSlash (s : string) :
  noSlash s = true -> Js.split Js.slash s = [s].
Proof.
  induction s as [|c s IH]; simpl; [reflexivity|].
  intros H. apply andb_true_iff in H as [Hc Hs].
  unfold notSlash in Hc. apply negb_true_iff in Hc. rewrite Hc.
  now rewrite (IH Hs).
Qed.

Lemma noSlash_cons (c : ascii) (s : string) :
  noSlash (String c s) = notSlash c && noSlash s.
Proof. reflexivity. Qed.






(** ** Normalisation of a path that ends in plain components *)

Lemma joinWith_cons (sp x : string) (l : list string) :
  l <> [] -> Js.joinWith sp (x :: l) = x ++ sp ++ Js.joinWith sp l.
Proof. destruct l; [congruence | reflexivity]. Qed.

Lemma joinWith_snoc (sp x : string) (l : list string) :
  Js.joinWith sp (l ++ [x])
  = match l with [] => x | _ => Js.joinWith sp l ++ sp ++ x end.
Proof.
  induction l as [|y l IH]; [reflexivity|].
  change ((y :: l) ++ [x])%list with (y :: (l ++ [x]))%list.
  rewrite (joinWith_cons sp y (l ++ [x])) by (destruct l; discriminate).
  rewrite IH. destruct l as [|z l]; [reflexivity|].
  rewrite (joinWith_cons sp y (z :: l)) by discriminate.
  now rewrite !append_assoc.
Qed.

Lemma joinWith_snoc_not_empty (sp x : string) (l : list string) :
  Js.isEmpty x = false -> Js.isEmpty (Js.joinWith sp (l ++ [x])) = false.
Proof.
  intros Hx. rewrite joinWith_snoc. destruct l; [exact Hx|].
  apply isEmpty_append_r, isEmpty_append_r, Hx.
Qed.

Lemma plain_parts (s : string) :
  plain s = true ->
  noSlash s = true /\ Js.isEmpty s = false /\ s <> "." /\ s <> "..".
Proof.
  unfold plain. intros H.
  repeat (apply andb_true_iff in H as [H ?]).
  repeat match goal with
         | h : negb _ = true |- _ => apply negb_true_iff in h
         end.
  repeat split; try assumption; now apply String.eqb_neq.
Qed.

Lemma normStep_plain (b : bool) (st : list string) (seg : string) :
  plain seg = true -> Path.normStep b st seg = seg :: st.
Proof.
  intros H. apply plain_parts in H as (_ & Hne & Hd & Hdd).
  unfold Path.normStep.
  apply isEmpty_false, String.eqb_neq in Hne.
  apply String.eqb_neq in Hd, Hdd. now rewrite Hne, Hd, Hdd.
Qed.

Lemma isAbsolute_append (p x : string) :
  Js.isEmpty p = false -> Path.isAbsolute (p ++ x) = Path.isAbsolute p.
Proof. destruct p; [discriminate | reflexivity]. Qed.

Lemma endsWithSlash_append (p x : string) :
  Js.isEmpty x = false -> Path.endsWithSlash (p ++ x) = Path.endsWithSlash x.
Proof.
  intros Hx. induction p as [|c p IH]; [reflexivity|].
  cbn [append Path.endsWithSlash]. rewrite IH.
  destruct (p ++ x) eqn:E; [|reflexivity].
  destruct p; cbn in E; [subst x|]; discriminate.
Qed.

Lemma endsWithSlash_noSlash (x : string) :
  noSlash x = true -> Path.endsWithSlash x = false.
Proof.
  induction x as [|c x IH]; [reflexivity|].
  rewrite noSlash_cons. intros H. apply andb_true_iff in H as [Hc Hx].
  cbn [Path.endsWithSlash]. rewrite (IH Hx).
  unfold notSlash in Hc. apply negb_true_iff in Hc. rewrite Hc.
  now destruct x.
Qed.

Lemma stackOf_child (b : bool) (p seg : string) :
  noSlash seg = true ->
  stackOf b (p ++ "/" ++ seg) = Path.normStep b (stackOf b p) seg.
Proof.
  intros H. unfold stackOf.
  change ("/" ++ seg) with (String Js.slash seg).
  now rewrite split_append_sep, fold_left_app, (split_noSlash _ H).
Qed.

Lemma normalize_child (p seg : string) :
  Js.isEmpty p = false -> plain seg = true ->
  Path.normalize (p ++ "/" ++ seg)
  = (if Path.isAbsolute p then "/" else "")
    ++ Js.joinWith "/" (rev (stackOf (negb (Path.isAbsolute p)) p) ++ [seg]).
Proof.
  intros Hp Hseg. pose proof (plain_parts _ Hseg) as (Hns & Hne & _ & _).
  unfold Path.normalize.
  rewrite (isEmpty_append_r p ("/" ++ seg)) by reflexivity.
  rewrite isAbsolute_append by exact Hp.
  rewrite endsWithSlash_append by reflexivity.
  assert (Hend : Path.endsWithSlash ("/" ++ seg) = false).
  { change ("/" ++ seg) with (String Js.slash seg).
    cbn [Path.endsWithSlash]. rewrite (endsWithSlash_noSlash _ Hns).
    destruct seg; [discriminate | reflexivity]. }
  rewrite Hend.
  unfold Path.normalizeString, Path.normSegments.
  fold (stackOf (negb (Path.isAbsolute p)) (p ++ "/" ++ seg)).
  rewrite stackOf_child, normStep_plain by assumption.
  cbn [rev]. unfold Path.sep.
  rewrite joinWith_snoc_not_empty by exact Hne.
  now rewrite append_empty_r.
Qed.

Lemma normalize_not_empty (p : string) : Js.isEmpty (Path.normalize p) = false.
Proof.
  unfold Path.normalize.
  destruct (Js.isEmpty p); [reflexivity|].
  destruct (Js.isEmpty (Path.normalizeString p _)) eqn:E.
  - destruct (Path.isAbsolute p), (Path.endsWithSlash p); reflexivity.
  - apply isEmpty_append_r.
    destruct (Path.normalizeString p _); [discriminate | reflexivity].
Qed.

Lemma join_not_empty (args : list string) : Js.isEmpty (Path.join args) = false.
Proof.
  unfold Path.join. destruct (filter _ args); [reflexivity|].
  apply normalize_not_empty.
Qed.

(** Appending one plain component to a path that already ends in one. *)
Lemma normalize_grandchild (p a b : string) :
  Js.isEmpty p = false -> plain a = true -> plain b = true ->
  Path.normalize ((p ++ "/" ++ a) ++ "/" ++ b)
  = Path.normalize (p ++ "/" ++ a) ++ "/" ++ b.
Proof.
  intros Hp Ha Hb. pose proof (plain_parts _ Ha) as (Hns & _).
  rewrite (normalize_child (p ++ "/" ++ a) b)
    by (try apply isEmpty_append_r; auto).
  rewrite (normalize_child p a) by assumption.
  rewrite isAbsolute_append by exact Hp.
  rewrite stackOf_child, normStep_plain by assumption.
  cbn [rev]. rewrite (joinWith_snoc "/" b).
  destruct (rev _ ++ [a])%list eqn:E;
    [now apply app_eq_nil in E as [_ E]|].
  now rewrite !append_assoc.
Qed.


(** Lengthening the last component lengthens the normal form alike. *)
Lemma normalize_child_suffix (p a x : string) :
  Js.isEmpty p = false -> plain a = true -> plain (a ++ x) = true ->
  Path.normalize (p ++ "/" ++ a ++ x) = Path.normalize (p ++ "/" ++ a) ++ x.
Proof.
  intros Hp Ha Hax.
  rewrite (normalize_child p (a ++ x)), (normalize_child p a) by assumption.
  rewrite !joinWith_snoc.
  destruct (rev _); now rewrite !append_assoc.
Qed.

(** ** Session identifiers *)

Lemma sessionChar_nameChar (c : ascii) :
  sessionChar c = true -> nameChar c = true.
Proof.
  destruct c as [[] [] [] [] [] [] [] []]; vm_compute; congruence.
Qed.

Lemma isDigit_sessionChar (c : ascii) : Js.isDigit c = true -> sessionChar c = true.
Proof.
  unfold sessionChar, Js.isAlnum. intros ->. now rewrite !orb_true_r.
Qed.

Lemma isAlnum_sessionChar (c : ascii) : Js.isAlnum c = true -> sessionChar c = true.
Proof. unfold sessionChar. now intros ->. Qed.


Lemma sessionFormat_not_empty (s : string) :
  sessionFormat s = true -> Js.isEmpty s = false.
Proof. destruct s; [discriminate | reflexivity]. Qed.

Lemma nameChars_plain (s : string) :
  Js.isEmpty s = false -> Js.all nameChar s = true -> plain s = true.
Proof.
  intros Hne Hall. unfold plain, noSlash.
  rewrite (all_impl nameChar notSlash s), Hne; auto.
  2:{ unfold nameChar. intros c H. now apply andb_true_iff in H as [H _]. }
  cbn [negb andb].
  destruct s as [|c s]; [discriminate|].
  cbn [Js.all] in Hall. apply andb_true_iff in Hall as [Hc Hs].
  assert (Hd : c <> Js.dot).
  { unfold nameChar in Hc. apply andb_true_iff in Hc as [_ Hc].
    apply negb_true_iff, Ascii.eqb_neq in Hc. exact Hc. }
  assert (E1 : (String c s =? ".")%string = false)
    by (apply String.eqb_neq; intros E; inversion E; now apply Hd).
  assert (E2 : (String c s =? "..")%string = false)
    by (apply String.eqb_neq; intros E; inversion E; now apply Hd).
  now rewrite E1, E2.
Qed.


(** ** Where the serving handler looks *)

Lemma tempDir_not_empty (env : Env) : Js.isEmpty (tempDirOf env) = false.
Proof.
  unfold tempDirOf. destruct (Js.truthy _); [reflexivity | apply join_not_empty].
Qed.

Lemma join2 (a b : string) :
  Js.isEmpty a = false -> Js.isEmpty b = false ->
  Path.join [a; b] = Path.normalize (a ++ "/" ++ b).
Proof.
  intros Ha Hb. unfold Path.join. cbn [filter]. now rewrite Ha, Hb.
Qed.

Lemma join3 (a b c : string) :
  Js.isEmpty a = false -> Js.isEmpty b = false -> Js.isEmpty c = false ->
  Path.join [a; b; c] = Path.normalize ((a ++ "/" ++ b) ++ "/" ++ c).
Proof.
  intros Ha Hb Hc. unfold Path.join. cbn [filter]. rewrite Ha, Hb, Hc.
  cbn [negb]. unfold Js.joinWith, Path.sep. cbn [concat].
  now rewrite !append_assoc.
Qed.




Lemma images_plain : plain "images" = true.
Proof. reflexivity. Qed.







Lemma GET_cases (env : Env) (fs : Fs.disk) (now : Z) (q : Query) :
  let o := ServeImage.GET env fs now q in
  (o = finish 400 "Missing parameters" []
   /\ missing (q_path q) || missing (q_session q) = true)
  \/ (o = finish 403 "Invalid session" []
      /\ sessionFormat (paramOf (q_session q)) = false)
  \/ (o = mkOutcome (Http.reply 410 "Session expired") []
            [CleanupSession
               (Path.join [tempDirOf env; paramOf (q_session q) ++ "-images"])]
      /\ expired now (sessionTimestamp (paramOf (q_session q))) = true)
  \/ (o = ServeImage.resolveAndServe env fs (paramOf (q_session q))
                                     (paramOf (q_path q))
      /\ reachesPathCheck now q).
Proof.
  unfold ServeImage.GET, reachesPathCheck.
  destruct (missing (q_path q)) eqn:E1; [left; auto|].
  destruct (missing (q_session q)) eqn:E2; [left; auto|].
  cbn [orb].
  destruct (sessionFormat _) eqn:E3; cbn [negb]; [|right; left; auto].
  destruct (expired _ _) eqn:E4; [right; right; left; auto|].
  right; right; right; auto.
Qed.

(** ** The two directories of a session *)













(** An image found in the third layout on a serverless host: four
    probes, then the read. *)
Example GET_alternate_layout :
  let env := {| VERCEL := Some "1"; VERCEL_ENV := None; cwd := "/var/task" |} in
  let fs := {| Fs.existsSync := fun p => (p =? "/tmp/17-ab/images/p.png")%string;
               Fs.readFile := fun p =>
                 if (p =? "/tmp/17-ab/images/p.png")%string
                 then Some [Byte.x89] else None |} in
  ServeImage.GET env fs 1000 (mkQuery (Some "p.png") (Some "17-ab"))
  = mkOutcome (Http.mkResponse 200 (Http.Bytes [Byte.x89]))
      [Fs.ExistsSync "/tmp/17-ab-images/p.png";
       Fs.ExistsSync "/tmp/17-ab-images/p.png";
       Fs.ExistsSync "/tmp/17-ab-images/images/p.png";
       Fs.ExistsSync "/tmp/17-ab/images/p.png";
       Fs.ReadFile "/tmp/17-ab/images/p.png"]
      [].
Proof. reflexivity. Qed.

Example GET_rejections :
  ServeImage.GET localEnv sampleDisk sampleNow (mkQuery None (Some sampleSession))
  = finish 400 "Missing parameters" []
  /\ ServeImage.GET localEnv sampleDisk sampleNow
       (mkQuery (Some "image_1.png") (Some "../etc"))
     = finish 403 "Invalid session" []
  /\ ServeImage.GET localEnv sampleDisk sampleNow
       (mkQuery (Some "..%2fimage_1.png") (Some sampleSession))
     = finish 403 "Invalid path" []
  /\ ServeImage.GET localEnv sampleDisk sampleNow
       (mkQuery (Some "other.png") (Some sampleSession))
     = finish 404 "Image not found"
         [Fs.ExistsSync "/srv/app/temp/1755063487275-lv57mqx7xzd-images/other.png";
          Fs.ExistsSync "/srv/app/temp/1755063487275-lv57mqx7xzd-images/other.png";
          Fs.ExistsSync
            "/srv/app/temp/1755063487275-lv57mqx7xzd-images/images/other.png";
          Fs.ExistsSync "/srv/app/temp/1755063487275-lv57mqx7xzd/images/other.png";
          Fs.ExistsSync "/srv/app/temp/1755063487275-lv57mqx7xzd/other.png";
          Fs.Readdir "/srv/app/temp"].
Proof. repeat split; reflexivity. Qed.

(** ** Expiry of a session *)

Lemma serveFile_status (fs : Fs.disk) (tr : list Fs.op) (p : string) :
  Http.status (response (serveFile fs tr p)) = 200
  \/ Http.status (response (serveFile fs tr p)) = 500.
Proof. unfold serveFile. destruct (Fs.readFile fs p); cbn; auto. Qed.

Ltac by_serveFile_status :=
  match goal with
  | |- context [serveFile ?fs ?tr ?p] =>
      destruct (serveFile_status fs tr p) as [-> | ->]; lia
  end.

Lemma resolveAndServe_status (env : Env) (fs : Fs.disk) (session n : string) :
  Http.status (response (ServeImage.resolveAndServe env fs session n)) <> 410.
Proof.
  unfold ServeImage.resolveAndServe. cbv zeta.
  destruct (_ || _); [cbn; lia|].
  destruct (Fs.existsSync fs _); cbn [negb]; [by_serveFile_status|].
  destruct (ServeImage.findAlternative fs _) as [[alt|] probes];
    [by_serveFile_status | cbn; lia].
Qed.

Lemma resolveAndServePlain_status (env : Env) (fs : Fs.disk) (session n : string) :
  Http.status (response (ServeImagePlain.resolveAndServe env fs session n))
  <> 410.
Proof.
  unfold ServeImagePlain.resolveAndServe. cbv zeta.
  destruct (_ || _); [cbn; lia|].
  destruct (Fs.existsSync fs _); cbn [negb]; [by_serveFile_status | cbn; lia].
Qed.

Lemma GET_well_formed (env : Env) (fs : Fs.disk) (now : Z)
      (session imagePath : string) :
  sessionFormat session = true -> Js.isEmpty imagePath = false ->
  ServeImage.GET env fs now (mkQuery (Some imagePath) (Some session))
  = if expired now (sessionTimestamp session)
    then mkOutcome (Http.reply 410 "Session expired") []
           [CleanupSession (Path.join [tempDirOf env; session ++ "-images"])]
    else ServeImage.resolveAndServe env fs session imagePath.
Proof.
  intros Hs Hp. unfold ServeImage.GET. cbn [q_path q_session missing paramOf].
  now rewrite Hp, (sessionFormat_not_empty _ Hs), Hs.
Qed.

Lemma GETPlain_well_formed (env : Env) (fs : Fs.disk) (now : Z)
      (session imagePath : string) :
  sessionFormat session = true -> Js.isEmpty imagePath = false ->
  ServeImagePlain.GET env fs now (mkQuery (Some imagePath) (Some session))
  = if expired now (sessionTimestamp session)
    then mkOutcome (Http.reply 410 "Session expired") []
           [CleanupSession (Path.join [tempDirOf env; session ++ "-images"])]
    else ServeImagePlain.resolveAndServe env fs session imagePath.
Proof.
  intros Hs Hp. unfold ServeImagePlain.GET.
  cbn [q_path q_session missing paramOf].
  now rewrite Hp, (sessionFormat_not_empty _ Hs), Hs.
Qed.

(** C10: a well-formed session whose timestamp lies in the future is
    never classified as expired, however far ahead the timestamp is: the
    request goes straight to path resolution and is never answered 410.
    Both versions of the handler behave so. *)
Theorem C10_future_timestamp_never_expires
        (env : Env) (fs : Fs.disk) (now t : Z) (session imagePath : string) :
  sessionFormat session = true -> Js.isEmpty imagePath = false ->
  sessionTimestamp session = Some t -> now < t ->
  let q := mkQuery (Some imagePath) (Some session) in
  expired now (sessionTimestamp session) = false
  /\ ServeImage.GET env fs now q
     = ServeImage.resolveAndServe env fs session imagePath
  /\ Http.status (response (ServeImage.GET env fs now q)) <> 410
  /\ ServeImagePlain.GET env fs now q
     = ServeImagePlain.resolveAndServe env fs session imagePath
  /\ Http.status (response (ServeImagePlain.GET env fs now q)) <> 410.
Proof.
  intros Hs Hp Et Hfuture. cbn zeta.
  assert (Hexp : expired now (sessionTimestamp session) = false).
  { rewrite Et. cbn [expired].
    destruct (Z.gtb_spec (now - t) maxAge) as [Hgt | _]; [|reflexivity].
    unfold maxAge in Hgt. lia. }
  rewrite (GET_well_formed env fs now _ _ Hs Hp),
          (GETPlain_well_formed env fs now _ _ Hs Hp), Hexp.
  repeat split; auto using resolveAndServe_status, resolveAndServePlain_status.
Qed.

(** A forged session stamped far in the future goes through the expiry
    check. *)
Lemma C10_future_timestamp_never_expires_witness :
  let q := mkQuery (Some "image_1.png") (Some "99999999999999999-forged") in
  sessionTimestamp "99999999999999999-forged" = Some 99999999999999999
  /\ sampleNow < 99999999999999999
  /\ Http.status (response (ServeImage.GET localEnv sampleDisk sampleNow q))
     <> 410
  /\ Http.status (response (ServeImagePlain.GET localEnv sampleDisk sampleNow q))
     <> 410.
Proof.
  cbv zeta.
  assert (Hlt : sampleNow < 99999999999999999) by (unfold sampleNow; lia).
  split; [reflexivity|]. split; [exact Hlt|].
  destruct (C10_future_timestamp_never_expires localEnv sampleDisk sampleNow
              99999999999999999 "99999999999999999-forged" "image_1.png"
              eq_refl eq_refl eq_refl Hlt) as (_ & _ & H1 & _ & H2).
  split; assumption.
Defined.

(** ** The session identifier generator *)

Lemma string_of_uint_digits (d : Decimal.uint) :
  Js.all Js.isDigit (NilEmpty.string_of_uint d) = true.
Proof. induction d; cbn [NilEmpty.string_of_uint Js.all]; auto. Qed.

Lemma toDecimal_digits (n : N) : Js.all Js.isDigit (Num.toDecimal n) = true.
Proof.
  unfold Num.toDecimal, NilZero.string_of_uint.
  destruct (N.to_uint n); try reflexivity; apply string_of_uint_digits.
Qed.

Lemma toDecimal_not_empty (n : N) : Js.isEmpty (Num.toDecimal n) = false.
Proof.
  unfold Num.toDecimal, NilZero.string_of_uint.
  destruct (N.to_uint n); reflexivity.
Qed.

Lemma digitChar_radix36 (d : N) : radix36Char (Num.digitChar d) = true.
Proof.
  unfold Num.digitChar.
  assert (H : Forall (fun c => radix36Char c = true) Num.digits36)
    by (repeat constructor).
  generalize (N.to_nat d). intros n.
  destruct (nth_in_or_default n Num.digits36 "0"%char) as [Hin | ->];
    [|reflexivity].
  exact (proj1 (Forall_forall _ _) H _ Hin).
Qed.

Lemma digits_radix36 (l : list N) :
  Js.all radix36Char (string_of_list_ascii (map Num.digitChar l)) = true.
Proof.
  induction l as [|d l IH]; [reflexivity|].
  cbn [map string_of_list_ascii Js.all].
  now rewrite digitChar_radix36, IH.
Qed.

Lemma randomSuffix_radix36 (r : Num.fraction) :
  Js.all radix36Char (randomSuffix r) = true.
Proof.
  unfold randomSuffix, Num.toString36.
  destruct (_ <=? _)%N; [|reflexivity].
  destruct (Num.fractionDigits _ _ _ _ _) as [carry written].
  destruct carry, written as [|d written]; try reflexivity;
    cbn [append Js.substringFrom]; apply digits_radix36.
Qed.

Lemma radix36_isAlnum (c : ascii) : radix36Char c = true -> Js.isAlnum c = true.
Proof.
  unfold radix36Char, Js.isAlnum.
  destruct (Js.isDigit c), (Js.isLower c), (Js.isUpper c); auto.
Qed.

Lemma sessionFormatRest_digits (ds rest : string) (seen : bool) :
  Js.all Js.isDigit ds = true ->
  sessionFormatRest seen (ds ++ "-" ++ rest)
  = (seen || negb (Js.isEmpty ds))
    && negb (Js.isEmpty rest) && Js.all Js.isAlnum rest.
Proof.
  revert seen. induction ds as [|c ds IH]; intros seen.
  - intros _. now destruct seen.
  - cbn [Js.all]. intros H. apply andb_true_iff in H as [Hc Hds].
    cbn [append sessionFormatRest]. rewrite Hc, (IH _ Hds).
    cbn. now rewrite orb_true_r.
Qed.

(** C3, as the code has it: an identifier is the decimal timestamp, a
    dash, and a suffix over the 36 symbols [0-9a-z]; it matches
    [^\d+-[A-Za-z0-9]+$] whenever that suffix is not empty.  The length
    of the suffix is whatever the radix-36 rendering of the random
    number gives. *)
Theorem C3_fileId_shape (now : N) (r : Num.fraction) :
  Js.isEmpty (Num.toDecimal now) = false
  /\ Js.all Js.isDigit (Num.toDecimal now) = true
  /\ fileId now r = Num.toDecimal now ++ "-" ++ randomSuffix r
  /\ Js.all radix36Char (randomSuffix r) = true
  /\ (Js.isEmpty (randomSuffix r) = false ->
      sessionFormat (fileId now r) = true).
Proof.
  repeat split.
  - apply toDecimal_not_empty.
  - apply toDecimal_digits.
  - apply randomSuffix_radix36.
  - intros Hne. unfold sessionFormat, fileId.
    rewrite sessionFormatRest_digits by apply toDecimal_digits.
    rewrite toDecimal_not_empty, Hne. cbn [negb orb andb].
    apply (all_impl radix36Char Js.isAlnum); [exact radix36_isAlnum|].
    apply randomSuffix_radix36.
Qed.

Lemma C3_fileId_shape_witness :
  Js.isEmpty (randomSuffix typicalFraction) = false
  /\ fileId 1755063487275 typicalFraction = "1755063487275-m8yzrxi89zb"
  /\ sessionFormat (fileId 1755063487275 typicalFraction) = true.
Proof.
  split; [reflexivity|]. split; [reflexivity|].
  apply (C3_fileId_shape 1755063487275 typicalFraction). reflexivity.
Defined.

(** C3 as stated fails: when [Math.random()] returns one half the
    suffix is the single character [i]. *)
Lemma C3_suffix_can_be_short :
  fileId 1755063487275 oneHalf = "1755063487275-i"
  /\ ~ (6 <= String.length (randomSuffix oneHalf))%nat.
Proof. split; [reflexivity | cbn; lia]. Qed.

Example toString36_zero : Num.toString36 zeroFraction = "0".
Proof. reflexivity. Qed.

(** With [Math.random()] at zero the suffix is empty, and the serving
    handler does not accept the identifier. *)
Example fileId_zero_random :
  fileId 1755063487275 zeroFraction = "1755063487275-"
  /\ sessionFormat (fileId 1755063487275 zeroFraction) = false.
Proof. split; reflexivity. Qed.

Example toString36_typical :
  Num.toString36 typicalFraction = "0.m8yzrxi89zb".
Proof. reflexivity. Qed.

Example toString36_dense :
  Num.toString36 denseFraction = "0.lp0aos7rbug".
Proof. reflexivity. Qed.

(** The timestamp the resolver parses out of an identifier is the
    number the generator wrote into it. *)
Lemma parseDigits_of_uint_acc (d : Decimal.uint) (acc : positive) (rest : string) :
  (forall x, Js.parseDigits x rest = x) ->
  Js.parseDigits (Z.pos acc) (NilEmpty.string_of_uint d ++ rest)
  = Z.pos (Pos.of_uint_acc d acc).
Proof.
  intros Hrest. revert acc.
  induction d as [|d IH|d IH|d IH|d IH|d IH|d IH|d IH|d IH|d IH|d IH];
    intros acc; cbn [NilEmpty.string_of_uint append Js.parseDigits Pos.of_uint_acc];
    [apply Hrest| | | | | | | | | |];
    change (Js.isDigit _) with true; cbv iota;
    rewrite <- IH; f_equal;
    match goal with
    | |- context [Js.digitValue ?c] =>
        let v := eval vm_compute in (Js.digitValue c) in
        change (Js.digitValue c) with v
    end; lia.
Qed.

Lemma parseDigits_of_uint (d : Decimal.uint) (rest : string) :
  (forall x, Js.parseDigits x rest = x) ->
  Js.parseDigits 0 (NilEmpty.string_of_uint d ++ rest)
  = Z.of_N (Pos.of_uint d).
Proof.
  intros Hrest.
  induction d as [|d IH|d IH|d IH|d IH|d IH|d IH|d IH|d IH|d IH|d IH];
    cbn [NilEmpty.string_of_uint append Js.parseDigits Pos.of_uint];
    [apply Hrest| | | | | | | | | |];
    change (Js.isDigit _) with true; cbv iota;
    [exact IH | ..];
    cbn [Z.of_N];
    match goal with
    | |- _ = Z.pos (Pos.of_uint_acc d ?a) =>
        rewrite <- (parseDigits_of_uint_acc d a rest Hrest)
    end; reflexivity.
Qed.

Lemma parseDigits_toDecimal (n : N) (rest : string) :
  (forall x, Js.parseDigits x rest = x) ->
  Js.parseDigits 0 (Num.toDecimal n ++ rest) = Z.of_N n.
Proof.
  intros Hrest. rewrite <- (DecimalN.Unsigned.of_to n) at 2.
  unfold Num.toDecimal, NilZero.string_of_uint, N.of_uint.
  destruct (N.to_uint n) eqn:E;
    try (rewrite <- E at 1; rewrite E; now apply parseDigits_of_uint).
  cbn. apply Hrest.
Qed.

Lemma split_dash_head (ds rest : string) :
  Js.all Js.isDigit ds = true ->
  hd "" (Js.split Js.dash (ds ++ "-" ++ rest)) = ds.
Proof.
  induction ds as [|c ds IH]; [reflexivity|].
  cbn [Js.all]. intros H. apply andb_true_iff in H as [Hc Hds].
  cbn [append Js.split].
  assert (Hd : Ascii.eqb c Js.dash = false)
    by (apply Ascii.eqb_neq; intros ->; discriminate).
  rewrite Hd. specialize (IH Hds). cbn [append] in IH.
  destruct (Js.split Js.dash _); cbn [hd] in *; now subst.
Qed.

Lemma sessionTimestamp_fileId (now : N) (r : Num.fraction) :
  sessionTimestamp (fileId now r) = Some (Z.of_N now).
Proof.
  unfold sessionTimestamp, fileId.
  rewrite split_dash_head by apply toDecimal_digits.
  pose proof (toDecimal_digits now) as Hd.
  pose proof (toDecimal_not_empty now) as Hne.
  pose proof (parseDigits_toDecimal now "" (fun x => eq_refl)) as Hp.
  rewrite append_empty_r in Hp.
  unfold Js.parseInt. destruct (Num.toDecimal now) as [|c s]; [discriminate|].
  cbn [Js.all] in Hd. apply andb_true_iff in Hd as [-> _].
  now rewrite Hp.
Qed.

(** ** The expiry boundary *)

Lemma uint_of_string_digits (ds : string) :
  Js.all Js.isDigit ds = true ->
  exists u, NilEmpty.uint_of_string ds = Some u.
Proof.
  induction ds as [|c ds IH]; [now exists Decimal.Nil|].
  cbn [Js.all]. intros H. apply andb_true_iff in H as [Hc Hds].
  destruct (IH Hds) as [u Hu]. cbn [NilEmpty.uint_of_string]. rewrite Hu.
  destruct c as [[] [] [] [] [] [] [] []]; try discriminate Hc;
    cbn; eexists; reflexivity.
Qed.

(** On a run of digits, the handler's [parseInt] reads the number the
    numeral denotes. *)
Lemma parseDigits_decimalValue (ds : string) :
  Js.all Js.isDigit ds = true -> Js.parseDigits 0 ds = decimalValue ds.
Proof.
  intros Hd. destruct (uint_of_string_digits _ Hd) as [u Hu].
  unfold decimalValue. rewrite Hu.
  apply NilEmpty.sus in Hu. subst ds.
  pose proof (parseDigits_of_uint u "" (fun x => eq_refl)) as Hp.
  rewrite append_empty_r in Hp. exact Hp.
Qed.

Lemma decimalValue_toDecimal (n : N) : decimalValue (Num.toDecimal n) = Z.of_N n.
Proof.
  rewrite <- parseDigits_decimalValue by apply toDecimal_digits.
  pose proof (parseDigits_toDecimal n "" (fun x => eq_refl)) as Hp.
  now rewrite append_empty_r in Hp.
Qed.

(** What the format test accepts: digits, one dash, letters and
    digits. *)
Lemma sessionFormatRest_shape (seen : bool) (s : string) :
  sessionFormatRest seen s = true ->
  exists ds r,
    s = ds ++ "-" ++ r
    /\ Js.all Js.isDigit ds = true
    /\ (seen = true \/ Js.isEmpty ds = false)
    /\ Js.isEmpty r = false /\ Js.all Js.isAlnum r = true.
Proof.
  revert seen. induction s as [|c s IH]; intros seen; [discriminate|].
  cbn [sessionFormatRest]. destruct (Js.isDigit c) eqn:Ed.
  - intros H. destruct (IH _ H) as (ds & r & -> & Hds & _ & Hr).
    exists (String c ds), r. cbn [append Js.all Js.isEmpty].
    rewrite Ed, Hds. auto.
  - intros H.
    apply andb_true_iff in H as [H Ha].
    apply andb_true_iff in H as [H Hr].
    apply andb_true_iff in H as [Hseen Hc].
    apply Ascii.eqb_eq in Hc. subst c.
    exists "", s. cbn [append Js.all].
    repeat split; auto. now apply negb_true_iff.
Qed.

Lemma sessionFormat_shape (session : string) :
  sessionFormat session = true <->
  exists ds r,
    session = ds ++ "-" ++ r
    /\ (Js.isEmpty ds = false /\ Js.all Js.isDigit ds = true)
    /\ (Js.isEmpty r = false /\ Js.all Js.isAlnum r = true).
Proof.
  unfold sessionFormat. split.
  - intros H.
    destruct (sessionFormatRest_shape _ _ H)
      as (ds & r & -> & Hds & [Hseen | Hne] & Hr); [discriminate|].
    exists ds, r. auto.
  - intros (ds & r & -> & [Hne Hds] & [Hr Ha]).
    rewrite sessionFormatRest_digits by exact Hds.
    now rewrite Hne, Hr, Ha.
Qed.

(** The timestamp the handler parses is the number before the dash. *)
Lemma sessionTimestamp_shape (ds r : string) :
  Js.isEmpty ds = false -> Js.all Js.isDigit ds = true ->
  sessionTimestamp (ds ++ "-" ++ r) = Some (decimalValue ds).
Proof.
  intros Hne Hds. unfold sessionTimestamp.
  rewrite split_dash_head by exact Hds.
  rewrite <- (parseDigits_decimalValue _ Hds).
  unfold Js.parseInt. destruct ds as [|c ds]; [discriminate|].
  cbn [Js.all] in Hds. apply andb_true_iff in Hds as [-> _]. reflexivity.
Qed.

(** C2: the session identifiers the endpoint accepts as well formed are
    exactly the texts [t-r], [t] a non-empty run of decimal digits and
    [r] a non-empty run of letters and digits.  For every such
    identifier the timestamp the handler works with is the number [t]
    denotes, and the endpoint answers 410 exactly when
    [now - t > maxAge] (one hour); the 410 answer is the text
    "Session expired" and is produced without reading any file,
    whatever the disk holds; at [now - t = maxAge - 1] the request
    passes the expiry check and goes on to path resolution. *)
Theorem C2_expiry_boundary
        (env : Env) (fs : Fs.disk) (now : Z) (session imagePath : string) :
  Js.isEmpty imagePath = false ->
  (sessionFormat session = true <->
   exists ds r,
     session = ds ++ "-" ++ r
     /\ (Js.isEmpty ds = false /\ Js.all Js.isDigit ds = true)
     /\ (Js.isEmpty r = false /\ Js.all Js.isAlnum r = true))
  /\ (forall ds r,
        session = ds ++ "-" ++ r ->
        Js.isEmpty ds = false -> Js.all Js.isDigit ds = true ->
        Js.isEmpty r = false -> Js.all Js.isAlnum r = true ->
        let t := decimalValue ds in
        let o :=
          ServeImage.GET env fs now (mkQuery (Some imagePath) (Some session)) in
        sessionTimestamp session = Some t
        /\ (Http.status (response o) = 410 <-> now - t > maxAge)
        /\ (now - t > maxAge ->
              response o = Http.reply 410 "Session expired" /\ trace o = [])
        /\ (now - t = maxAge - 1 ->
              o = ServeImage.resolveAndServe env fs session imagePath)).
Proof.
  intros Hp. split; [apply sessionFormat_shape|].
  intros ds r E Hne Hds Hr Ha. cbn zeta.
  assert (Hs : sessionFormat session = true).
  { apply sessionFormat_shape. exists ds, r. auto. }
  assert (Et : sessionTimestamp session = Some (decimalValue ds))
    by (rewrite E; now apply sessionTimestamp_shape).
  rewrite (GET_well_formed env fs now _ _ Hs Hp), Et.
  cbn [expired].
  destruct (Z.gtb_spec (now - decimalValue ds) maxAge) as [Hgt | Hle].
  - repeat split; auto; lia.
  - repeat split; try lia.
    intros H. now apply resolveAndServe_status in H.
Qed.

(** One millisecond past the hour the image is no longer served, though
    it is still on disk; one millisecond before the hour it is. *)
Lemma C2_expiry_boundary_witness :
  let q := mkQuery (Some "image_1.png") (Some sampleSession) in
  sampleSession = "1755063487275" ++ "-" ++ "lv57mqx7xzd"
  /\ decimalValue "1755063487275" = 1755063487275
  /\ Fs.existsSync sampleDisk
       "/srv/app/temp/1755063487275-lv57mqx7xzd-images/image_1.png" = true
  /\ sessionTimestamp sampleSession = Some 1755063487275
  /\ response (ServeImage.GET localEnv sampleDisk (1755063487275 + 3600001) q)
     = Http.reply 410 "Session expired"
  /\ Http.status
       (response (ServeImage.GET localEnv sampleDisk (1755063487275 + 3599999) q))
     = 200.
Proof.
  cbv zeta. split; [reflexivity|]. split; [reflexivity|]. split; [reflexivity|].
  destruct (proj2 (C2_expiry_boundary localEnv sampleDisk
                     (1755063487275 + 3600001) sampleSession "image_1.png"
                     eq_refl)
                  "1755063487275" "lv57mqx7xzd"
                  eq_refl eq_refl eq_refl eq_refl eq_refl)
    as (Et & _ & Hexpired & _).
  destruct (proj2 (C2_expiry_boundary localEnv sampleDisk
                     (1755063487275 + 3599999) sampleSession "image_1.png"
                     eq_refl)
                  "1755063487275" "lv57mqx7xzd"
                  eq_refl eq_refl eq_refl eq_refl eq_refl)
    as (_ & _ & _ & Hfresh).
  split; [exact Et|]. split.
  - apply Hexpired. reflexivity.
  - rewrite Hfresh by reflexivity. reflexivity.
Defined.

(** ** Options handed to the converter *)

(** C9: the converter is always called with [preserveLayout] true,
    whatever the form field holds, and two requests that differ only in
    that field hand it the same options. *)
Theorem C9_preserveLayout_is_always_true
        (tempDir id : string) (form : Convert.Form) :
  Convert.preserveLayout (Convert.convertOptions tempDir id form) = true
  /\ forall v : option Convert.formValue,
       Convert.convertOptions tempDir id
         (Convert.mkForm v (Convert.f_extractImages form)
                         (Convert.f_extractCharts form))
       = Convert.convertOptions tempDir id form.
Proof.
  assert (H : forall b, Convert.orElse b true = true) by (now intros []).
  split.
  - apply H.
  - intros v. unfold Convert.convertOptions. cbn [Convert.f_preserveLayout
      Convert.f_extractImages Convert.f_extractCharts].
    now rewrite !H.
Qed.

Example preserveLayout_false_is_ignored :
  Convert.preserveLayout
    (Convert.convertOptions "/srv/app/temp" "1755063487275-lv57mqx7xzd"
       (Convert.mkForm (Some (Convert.FormString "false")) None None))
  = true.
Proof. reflexivity. Qed.

(** ** Choice of the output mode *)

Lemma shouldUseBase64_truthy (env : Env) (fs : Fs.disk) :
  Js.truthy (ConvertServerless.shouldUseBase64 env fs) = true.
Proof.
  unfold ConvertServerless.shouldUseBase64.
  set (probe := Js.or _ (Js.Boolean (negb _))).
  unfold Js.or at 1. now destruct (Js.truthy probe) eqn:E.
Qed.

(** C4: on a local installation (no serverless variable, [public]
    present) the policy selects disk mode, and the code selects inline
    mode; the trailing [|| true] makes the probe truthy in every
    environment. *)
Theorem C4_inline_mode_is_forced :
  ConvertServerless.specifiedMode localEnv sampleDisk = ConvertServerless.Disk
  /\ ConvertServerless.outputMode localEnv sampleDisk = ConvertServerless.Inline
  /\ forall env fs,
       ConvertServerless.outputMode env fs = ConvertServerless.Inline.
Proof.
  split; [reflexivity|]. split; [reflexivity|].
  intros env fs. unfold ConvertServerless.outputMode.
  now rewrite shouldUseBase64_truthy.
Qed.

(** ** The retention sweep *)

Lemma lookup_head (file : string) (n : Cleanup.node) (d : Cleanup.directory) :
  Cleanup.lookup file ((file, n) :: d) = Some n.
Proof. cbn [Cleanup.lookup]. now rewrite String.eqb_refl. Qed.

Lemma lookup_other (file other : string) (n : Cleanup.node)
      (d : Cleanup.directory) :
  other <> file ->
  Cleanup.lookup file ((other, n) :: d) = Cleanup.lookup file d.
Proof.
  intros H. cbn [Cleanup.lookup]. apply String.eqb_neq in H. now rewrite H.
Qed.

Lemma stat_visible (file : string) (n : Cleanup.node) (d : Cleanup.directory) :
  Cleanup.lookup file d = Some n ->
  Cleanup.nodeKind n <> Cleanup.DanglingLink ->
  Cleanup.stat file d = Cleanup.Ok (Cleanup.mtime n).
Proof.
  intros Hl Hk. unfold Cleanup.stat. rewrite Hl.
  destruct (Cleanup.nodeKind n); congruence.
Qed.

(** An old entry that is not locked is removed by [unlink], or else by
    the recursive [rm]. *)
Lemma sweep_removes (now : Z) (file : string) (rest : list string)
      (n : Cleanup.node) (d : Cleanup.directory) (cleaned : nat) :
  Cleanup.lookup file d = Some n ->
  Cleanup.nodeKind n <> Cleanup.DanglingLink ->
  Cleanup.locked n = false ->
  now - Cleanup.mtime n > Cleanup.CLEANUP_AGE_MS ->
  Cleanup.sweep now (file :: rest) d cleaned
  = Cleanup.sweep now rest (Cleanup.remove file d) (S cleaned).
Proof.
  intros Hl Hk Hlock Hold. cbn [Cleanup.sweep].
  rewrite (stat_visible _ _ _ Hl Hk).
  destruct (Z.gtb_spec (now - Cleanup.mtime n) Cleanup.CLEANUP_AGE_MS); [|lia].
  unfold Cleanup.unlink, Cleanup.rm. rewrite Hl, Hlock.
  destruct (Cleanup.nodeKind n); reflexivity.
Qed.

Lemma sweep_keeps (now : Z) (file : string) (rest : list string)
      (n : Cleanup.node) (d : Cleanup.directory) (cleaned : nat) :
  Cleanup.lookup file d = Some n ->
  Cleanup.nodeKind n <> Cleanup.DanglingLink ->
  now - Cleanup.mtime n <= Cleanup.CLEANUP_AGE_MS ->
  Cleanup.sweep now (file :: rest) d cleaned
  = Cleanup.sweep now rest d cleaned.
Proof.
  intros Hl Hk Hyoung. cbn [Cleanup.sweep].
  rewrite (stat_visible _ _ _ Hl Hk).
  destruct (Z.gtb_spec (now - Cleanup.mtime n) Cleanup.CLEANUP_AGE_MS);
    [lia | reflexivity].
Qed.

(** An old entry whose removal fails both ways is skipped. *)
Lemma sweep_skips (now modified : Z) (file : string) (rest : list string)
      (d : Cleanup.directory) (cleaned : nat) :
  Cleanup.stat file d = Cleanup.Ok modified ->
  now - modified > Cleanup.CLEANUP_AGE_MS ->
  Cleanup.cannotRemove file d ->
  Cleanup.sweep now (file :: rest) d cleaned
  = Cleanup.sweep now rest d cleaned.
Proof.
  intros Hstat Hold [Hunlink Hrm]. cbn [Cleanup.sweep].
  rewrite Hstat, Hunlink, Hrm.
  destruct (Z.gtb_spec (now - modified) Cleanup.CLEANUP_AGE_MS);
    [reflexivity | lia].
Qed.

Lemma locked_cannotRemove (file : string) (n : Cleanup.node)
      (d : Cleanup.directory) :
  Cleanup.lookup file d = Some n -> Cleanup.locked n = true ->
  Cleanup.cannotRemove file d.
Proof.
  intros Hl Hlock. unfold Cleanup.cannotRemove, Cleanup.unlink, Cleanup.rm.
  rewrite Hl, Hlock. now destruct (Cleanup.nodeKind n).
Qed.

Lemma lookup_app_fresh (file : string) (kept rest : Cleanup.directory) :
  ~ In file (map fst kept) ->
  Cleanup.lookup file (kept ++ rest)%list = Cleanup.lookup file rest.
Proof.
  induction kept as [|[name n] kept IH]; [reflexivity|].
  cbn [map fst In app]. intros H.
  rewrite lookup_other by tauto. apply IH. tauto.
Qed.

Lemma remove_fresh (file : string) (d : Cleanup.directory) :
  ~ In file (map fst d) -> Cleanup.remove file d = d.
Proof.
  induction d as [|[name n] d IH]; [reflexivity|].
  cbn [map fst In]. intros H. unfold Cleanup.remove in *. cbn [filter fst].
  assert (E : (name =? file)%string = false) by (apply String.eqb_neq; tauto).
  rewrite E. cbn [negb]. f_equal. apply IH. tauto.
Qed.

Lemma remove_app (file : string) (a b : Cleanup.directory) :
  Cleanup.remove file (a ++ b)%list
  = (Cleanup.remove file a ++ Cleanup.remove file b)%list.
Proof. apply filter_app. Qed.

Lemma remove_head (file : string) (n : Cleanup.node) (d : Cleanup.directory) :
  ~ In file (map fst d) -> Cleanup.remove file ((file, n) :: d) = d.
Proof.
  intros H. unfold Cleanup.remove. cbn [filter fst].
  rewrite String.eqb_refl. cbn [negb]. now apply remove_fresh.
Qed.

(** The sweep of a directory whose names are distinct and whose entries
    can all be examined: every entry is visited; the reclaimable ones
    are removed and counted, the others stay. *)
Lemma sweep_all (now : Z) (es kept : Cleanup.directory) (cleaned : nat) :
  NoDup (map fst (kept ++ es)%list) -> Cleanup.allVisible es ->
  Cleanup.sweep now (map fst es) (kept ++ es)%list cleaned
  = ((cleaned + List.length (filter (Cleanup.reclaimable now) es))%nat,
     (kept ++ filter (fun e => negb (Cleanup.reclaimable now e)) es)%list).
Proof.
  revert kept cleaned.
  induction es as [|[file n] es IH]; intros kept cleaned Hnd Hvis.
  - cbn. now rewrite Nat.add_0_r.
  - assert (Hvis' : Cleanup.allVisible es)
      by (intros e He; apply Hvis; now right).
    assert (Hk : Cleanup.nodeKind n <> Cleanup.DanglingLink)
      by (apply (Hvis (file, n)); now left).
    rewrite map_app in Hnd. cbn [map fst] in Hnd.
    pose proof (NoDup_remove_2 _ _ _ Hnd) as Hfresh.
    pose proof (NoDup_remove_1 _ _ _ Hnd) as Hnd'.
    assert (Hfk : ~ In file (map fst kept))
      by (intros H; apply Hfresh, in_or_app; now left).
    assert (Hfe : ~ In file (map fst es))
      by (intros H; apply Hfresh, in_or_app; now right).
    assert (Hl : Cleanup.lookup file (kept ++ (file, n) :: es)%list = Some n)
      by (rewrite lookup_app_fresh by exact Hfk; apply lookup_head).
    assert (Hstep : forall c,
               Cleanup.sweep now (map fst es) ((kept ++ [(file, n)]) ++ es)%list c
               = ((c + List.length (filter (Cleanup.reclaimable now) es))%nat,
                  (kept ++ (file, n)
                     :: filter (fun e => negb (Cleanup.reclaimable now e)) es)%list)).
    { intros c. rewrite IH; [now rewrite <- app_assoc | | exact Hvis'].
      rewrite <- app_assoc, map_app. exact Hnd. }
    rewrite <- app_assoc in Hstep. cbn [app] in Hstep.
    cbn [map fst filter].
    destruct (Cleanup.reclaimable now (file, n)) eqn:Hr; cbn [negb].
    + unfold Cleanup.reclaimable in Hr. cbn [snd] in Hr.
      apply andb_true_iff in Hr as [Hold Hlock].
      apply negb_true_iff in Hlock. apply Z.gtb_lt in Hold.
      rewrite (sweep_removes now file _ n) by (auto; lia).
      rewrite remove_app, (remove_fresh file kept), remove_head by assumption.
      rewrite IH; [| now rewrite map_app | exact Hvis'].
      cbn [List.length]. f_equal. lia.
    + unfold Cleanup.reclaimable in Hr. cbn [snd] in Hr.
      destruct (Z.gtb_spec (now - Cleanup.mtime n) Cleanup.CLEANUP_AGE_MS)
        as [Hold | Hyoung]; cbn [andb] in Hr.
      * apply negb_false_iff in Hr.
        rewrite (sweep_skips now (Cleanup.mtime n));
          [apply Hstep | now apply stat_visible | lia
           | now apply (locked_cannotRemove _ n)].
      * rewrite (sweep_keeps now file _ n) by (auto; lia). apply Hstep.
Qed.

(** C5: a child that is old enough and whose removal fails both ways
    leaves the count and the directory as they were, and the loop goes
    on with the remaining siblings.  So, in a directory whose entries
    can all be examined, every entry is visited whatever fails to be
    removed: the count is the number of reclaimable entries, and the
    entries left are exactly the others. *)
Theorem C5_removal_failure_does_not_abort
        (now : Z) (d : Cleanup.directory) :
  (forall modified file rest cleaned,
      Cleanup.stat file d = Cleanup.Ok modified ->
      now - modified > Cleanup.CLEANUP_AGE_MS ->
      Cleanup.cannotRemove file d ->
      Cleanup.sweep now (file :: rest) d cleaned
      = Cleanup.sweep now rest d cleaned)
  /\ (NoDup (Cleanup.readdir d) -> Cleanup.allVisible d ->
      Cleanup.cleanDirectory now d
      = (List.length (filter (Cleanup.reclaimable now) d),
         filter (fun e => negb (Cleanup.reclaimable now e)) d)).
Proof.
  split.
  - intros modified file rest cleaned. apply sweep_skips.
  - intros Hnd Hvis. unfold Cleanup.cleanDirectory, Cleanup.readdir.
    exact (sweep_all now d [] 0 Hnd Hvis).
Qed.

(** A locked old file between two removable old entries: both others
    are removed, the locked one is kept and not counted. *)
Lemma C5_removal_failure_does_not_abort_witness :
  let d := [("a.zip", Cleanup.mkNode 0 Cleanup.RegularFile false);
            ("b.zip", Cleanup.mkNode 0 Cleanup.RegularFile true);
            ("c-images", Cleanup.mkNode 0 Cleanup.Directory false)] in
  let d1 := Cleanup.remove "a.zip" d in
  Cleanup.cannotRemove "b.zip" d1
  /\ Cleanup.sweep 7200000 ["b.zip"; "c-images"] d1 1
     = Cleanup.sweep 7200000 ["c-images"] d1 1
  /\ Cleanup.cleanDirectory 7200000 d
     = (2%nat, [("b.zip", Cleanup.mkNode 0 Cleanup.RegularFile true)]).
Proof.
  cbv zeta. split; [split; reflexivity|]. split.
  - apply (proj1 (C5_removal_failure_does_not_abort 7200000 _) 0 "b.zip").
    + reflexivity.
    + unfold Cleanup.CLEANUP_AGE_MS. lia.
    + split; reflexivity.
  - rewrite (proj2 (C5_removal_failure_does_not_abort 7200000 _));
      [reflexivity | |].
    + cbn. repeat constructor; cbn; intuition discriminate.
    + intros e [<- | [<- | [<- | []]]]; discriminate.
Defined.

(** C6: in a directory of two entries, one a second younger than the
    retention window and one a second older, the sweep removes the older
    one only and reports 1, in whichever order [readdir] lists them,
    provided both entries can be examined and the older one is not
    protected against removal. *)
Theorem C6_sweep_removes_exactly_the_older
        (now : Z) (young old : string) (ny no : Cleanup.node) :
  young <> old ->
  now - Cleanup.mtime ny = Cleanup.CLEANUP_AGE_MS - 1000 ->
  now - Cleanup.mtime no = Cleanup.CLEANUP_AGE_MS + 1000 ->
  Cleanup.nodeKind ny <> Cleanup.DanglingLink ->
  Cleanup.nodeKind no <> Cleanup.DanglingLink ->
  Cleanup.locked no = false ->
  Cleanup.cleanDirectory now [(young, ny); (old, no)] = (1%nat, [(young, ny)])
  /\ Cleanup.cleanDirectory now [(old, no); (young, ny)] = (1%nat, [(young, ny)]).
Proof.
  intros Hne Hy Ho Hky Hko Hlock.
  assert (Hne' : old <> young) by congruence.
  assert (Ey : (young =? old)%string = false) by now apply String.eqb_neq.
  assert (Eo : (old =? young)%string = false) by now apply String.eqb_neq.
  unfold Cleanup.cleanDirectory, Cleanup.readdir. cbn [map fst]. split.
  - rewrite (sweep_keeps now young _ ny) by (try apply lookup_head; auto; lia).
    rewrite (sweep_removes now old _ no);
      try (rewrite lookup_other by exact Hne; apply lookup_head); auto; try lia.
    cbn [Cleanup.sweep Cleanup.remove filter fst].
    now rewrite Ey, String.eqb_refl.
  - rewrite (sweep_removes now old _ no) by (try apply lookup_head; auto; lia).
    cbn [Cleanup.remove filter fst]. rewrite String.eqb_refl, Ey. cbn [negb].
    rewrite (sweep_keeps now young _ ny) by (try apply lookup_head; auto; lia).
    reflexivity.
Qed.

Lemma C6_sweep_removes_exactly_the_older_witness :
  let young := Cleanup.mkNode 3601000 Cleanup.RegularFile false in
  let old := Cleanup.mkNode 3599000 Cleanup.Directory false in
  Cleanup.cleanDirectory 7200000 [("new.md", young); ("1-abc-images", old)]
  = (1%nat, [("new.md", young)])
  /\ Cleanup.cleanDirectory 7200000 [("1-abc-images", old); ("new.md", young)]
     = (1%nat, [("new.md", young)]).
Proof.
  cbv zeta.
  apply (C6_sweep_removes_exactly_the_older 7200000 "new.md" "1-abc-images");
    cbn; unfold Cleanup.CLEANUP_AGE_MS; (lia || discriminate || reflexivity).
Defined.

(** ** Base name of a resolved path *)

Lemma basename_plain (b : string) : plain b = true -> Path.basename b = b.
Proof.
  intros H. apply plain_parts in H as (Hns & Hne & _).
  unfold Path.basename. rewrite (split_noSlash _ Hns).
  cbn [filter]. now rewrite Hne.
Qed.

Lemma basename_child (x b : string) :
  plain b = true -> Path.basename (x ++ "/" ++ b) = b.
Proof.
  intros H. apply plain_parts in H as (Hns & Hne & _).
  unfold Path.basename. change ("/" ++ b) with (String Js.slash b).
  rewrite split_append_sep, (split_noSlash _ Hns), filter_app.
  cbn [filter]. rewrite Hne. cbn [negb]. apply last_last.
Qed.

Lemma basename_joined (l : list string) (b : string) :
  plain b = true -> Path.basename (Js.joinWith "/" (l ++ [b])) = b.
Proof.
  intros H. rewrite joinWith_snoc. destruct l.
  - now apply basename_plain.
  - now apply basename_child.
Qed.

(** The segments of a path around its base name: only empty segments
    follow it. *)
Lemma basename_position (l : list string) (b : string) :
  last (filter (fun s => negb (Js.isEmpty s)) l) "" = b ->
  Js.isEmpty b = false ->
  exists pre post,
    l = (pre ++ b :: post)%list
    /\ Forall (fun s => Js.isEmpty s = true) post.
Proof.
  induction l as [|x l IH]; cbn [filter]; intros Hlast Hb.
  - cbn in Hlast. subst b. discriminate.
  - destruct (Js.isEmpty x) eqn:Ex; cbn [negb] in Hlast.
    + destruct (IH Hlast Hb) as (pre & post & -> & Hpost).
      now exists (x :: pre), post.
    + destruct (filter _ l) as [|y ys] eqn:Ef.
      * cbn in Hlast. subst x. exists [], l. split; [reflexivity|].
        apply Forall_forall. intros s Hs.
        destruct (Js.isEmpty s) eqn:Es; [reflexivity|].
        assert (Hin : In s (filter (fun s => negb (Js.isEmpty s)) l))
          by (apply filter_In; now rewrite Es).
        rewrite Ef in Hin. destruct Hin.
      * change (last (x :: y :: ys) "") with (last (y :: ys) "") in Hlast.
        destruct (IH Hlast Hb) as (pre & post & -> & Hpost).
        now exists (x :: pre), post.
Qed.

Lemma fold_normStep_empties (b : bool) (l : list string) (st : list string) :
  Forall (fun s => Js.isEmpty s = true) l ->
  fold_left (Path.normStep b) l st = st.
Proof.
  intros H. revert st. induction H as [|x l Hx _ IH]; intros st; [reflexivity|].
  cbn [fold_left]. apply isEmpty_true in Hx. subst x. exact (IH st).
Qed.

(** Normalising any path whose text ends with [p ++ "/"] leaves the
    base name of [p] as the last component. *)
Lemma normSegments_basename (b : bool) (front : list string) (p : string) :
  plain (Path.basename p) = true ->
  exists st,
    Path.normSegments b (front ++ Js.split Js.slash p ++ [""])
    = (st ++ [Path.basename p])%list.
Proof.
  intros Hb. pose proof (plain_parts _ Hb) as (_ & Hne & _).
  destruct (basename_position (Js.split Js.slash p) (Path.basename p)
              eq_refl Hne) as (pre & post & E & Hpost).
  rewrite E. unfold Path.normSegments.
  rewrite !fold_left_app. cbn [fold_left].
  rewrite (normStep_plain b _ _ Hb).
  change (Path.normStep b ?st "") with st.
  rewrite (fold_normStep_empties b post) by exact Hpost.
  cbn [rev]. eexists. reflexivity.
Qed.

Lemma basename_resolve (cwd p : string) :
  plain (Path.basename p) = true ->
  Path.basename (Path.resolve cwd p) = Path.basename p.
Proof.
  intros Hb.
  assert (Hp : Js.isEmpty p = false) by (destruct p; [discriminate | reflexivity]).
  assert (Hsplit : forall x, Js.split Js.slash (x ++ "/" ++ "")
                             = (Js.split Js.slash x ++ [""])%list).
  { intros x. change ("/" ++ "") with (String Js.slash "").
    now rewrite split_append_sep. }
  unfold Path.resolve. cbn [fold_left orb]. rewrite Hp.
  destruct (Path.isAbsolute p || Js.isEmpty cwd) eqn:Estop.
  - unfold Path.normalizeString.
    rewrite Hsplit.
    destruct (normSegments_basename (negb (Path.isAbsolute p)) [] p Hb)
      as (st & Est).
    cbn [app] in Est. rewrite Est. unfold Path.sep.
    destruct (Path.isAbsolute p).
    + rewrite joinWith_snoc. destruct st.
      * now apply (basename_child "").
      * rewrite <- append_assoc. now apply basename_child.
    + rewrite joinWith_snoc_not_empty
        by (now apply plain_parts in Hb as (_ & Hne & _)).
      now apply basename_joined.
  - unfold Path.normalizeString.
    change (cwd ++ "/" ++ p ++ "/" ++ "")
      with (cwd ++ String Js.slash (p ++ "/" ++ "")).
    rewrite split_append_sep, Hsplit.
    destruct (normSegments_basename (negb (Path.isAbsolute cwd))
                (Js.split Js.slash cwd) p Hb) as (st & Est).
    rewrite Est. unfold Path.sep.
    destruct (Path.isAbsolute cwd).
    + rewrite joinWith_snoc. destruct st.
      * now apply (basename_child "").
      * rewrite <- append_assoc. now apply basename_child.
    + rewrite joinWith_snoc_not_empty
        by (now apply plain_parts in Hb as (_ & Hne & _)).
      now apply basename_joined.
Qed.

(** ** The archive packager *)

Lemma filter_isEntry_addImage (cwd imageDir : string) (image : Convert.Image) :
  filter Convert.isEntry (Convert.addImage cwd imageDir image)
  = [Convert.AddFile
       (Path.resolve cwd (paramOf (Convert.savedPath image)))
       ("images/" ++ Path.basename
                       (Path.resolve cwd (paramOf (Convert.savedPath image))))].
Proof.
  unfold Convert.addImage, paramOf. cbv zeta.
  destruct (Convert.pathCheckPasses _ _); reflexivity.
Qed.

Lemma filter_flat_map {A B} (f : B -> bool) (g : A -> list B) (h : A -> B)
      (l : list A) :
  (forall a, filter f (g a) = [h a]) ->
  filter f (flat_map g l) = map h l.
Proof.
  intros H. induction l as [|a l IH]; [reflexivity|].
  cbn [flat_map map]. now rewrite filter_app, H, IH.
Qed.

(** C8: the archive receives the markdown as [<originalName>.md] and,
    for every image of the list in order, the file at its absolute path
    under the name [images/<base name>]; an image whose path fails the
    prefix check against the image directory is logged and added all
    the same.  The base name of the absolute path is that of
    [savedPath] itself whenever [savedPath] ends in an ordinary file
    name. *)
Theorem C8_every_image_is_packed
        (cwd zipPath markdown originalName imageDir : string)
        (images : list Convert.Image) :
  let calls :=
    Convert.queueEntries cwd zipPath markdown originalName images imageDir in
  let absolute image := Path.resolve cwd (paramOf (Convert.savedPath image)) in
  filter Convert.isEntry calls
  = Convert.Append markdown (originalName ++ ".md")
    :: map (fun image =>
              Convert.AddFile (absolute image)
                              ("images/" ++ Path.basename (absolute image)))
           images
  /\ forall image,
       In image images ->
       In (Convert.AddFile (absolute image)
                           ("images/" ++ Path.basename (absolute image)))
          calls
       /\ (Convert.pathCheckPasses
             (Path.normalize (absolute image))
             (Path.normalize (Path.resolve cwd imageDir)) = false ->
           In (Convert.Console
                 (Convert.PathCheckFailed
                    (Path.normalize (absolute image))
                    (Path.normalize (Path.resolve cwd imageDir))))
              calls)
       /\ (forall sp,
             Convert.savedPath image = Some sp ->
             plain (Path.basename sp) = true ->
             In (Convert.AddFile (Path.resolve cwd sp)
                                 ("images/" ++ Path.basename sp))
                calls).
Proof.
  cbv zeta. split.
  - unfold Convert.queueEntries. cbn [app filter Convert.isEntry].
    f_equal. rewrite filter_app. cbn [filter Convert.isEntry].
    rewrite app_nil_r.
    apply filter_flat_map. intros image. apply filter_isEntry_addImage.
  - intros image Hin. unfold Convert.queueEntries.
    assert (Hsub : forall c, In c (Convert.addImage cwd imageDir image) ->
             In c ([Convert.CreateWriteStream zipPath; Convert.Pipe;
                    Convert.Append markdown (originalName ++ ".md")]
                   ++ flat_map (Convert.addImage cwd imageDir) images
                   ++ [Convert.Finalize])).
    { intros c Hc. apply in_or_app. right. apply in_or_app. left.
      apply in_flat_map. now exists image. }
    assert (Hadd : In (Convert.AddFile
                         (Path.resolve cwd (paramOf (Convert.savedPath image)))
                         ("images/" ++ Path.basename
                            (Path.resolve cwd (paramOf (Convert.savedPath image)))))
                      (Convert.addImage cwd imageDir image)).
    { unfold Convert.addImage, paramOf. cbv zeta.
      apply in_or_app. right. apply in_or_app. right. now left. }
    split; [|split].
    + apply Hsub, Hadd.
    + intros Hfail. apply Hsub. unfold Convert.addImage, paramOf in *.
      cbv zeta. rewrite Hfail. apply in_or_app. right. now left.
    + intros sp Esp Hplain. apply Hsub.
      rewrite Esp in Hadd. cbn [paramOf] in Hadd.
      now rewrite (basename_resolve cwd sp Hplain) in Hadd.
Qed.

Lemma C8_every_image_is_packed_witness :
  let stray := Convert.mkImage (Some "/var/elsewhere/chart.png") in
  let calls :=
    Convert.queueEntries "/srv/app" "/srv/app/public/downloads/report__17-ab.zip"
                         "# Title" "report" [stray]
                         "/srv/app/temp/17-ab-images" in
  Convert.pathCheckPasses "/var/elsewhere/chart.png"
                          "/srv/app/temp/17-ab-images" = false
  /\ In (Convert.AddFile "/var/elsewhere/chart.png" "images/chart.png") calls
  /\ In (Convert.Console
           (Convert.PathCheckFailed "/var/elsewhere/chart.png"
                                    "/srv/app/temp/17-ab-images")) calls.
Proof.
  cbv zeta. split; [reflexivity|].
  destruct (C8_every_image_is_packed "/srv/app"
              "/srv/app/public/downloads/report__17-ab.zip" "# Title" "report"
              "/srv/app/temp/17-ab-images"
              [Convert.mkImage (Some "/var/elsewhere/chart.png")])
    as [_ H].
  destruct (H (Convert.mkImage (Some "/var/elsewhere/chart.png")))
    as (_ & Hlog & Hname); [now left|].
  split; [exact (Hname _ eq_refl eq_refl) | apply Hlog; reflexivity].
Defined.

(** ** Packaging and clean-up *)






(* ================================================================= *)
(** * Further properties of the handlers *)

(** ** Upload validation *)

Lemma toLowerCase_append (a b : string) :
  Js.toLowerCase (a ++ b) = Js.toLowerCase a ++ Js.toLowerCase b.
Proof.
  induction a as [|c a IH]; [reflexivity|].
  cbn [append Js.toLowerCase]. now rewrite IH.
Qed.

Lemma length_append (a b : string) :
  String.length (a ++ b) = (String.length a + String.length b)%nat.
Proof. induction a as [|c a IH]; cbn; [reflexivity | now rewrite IH]. Qed.

Lemma substringFrom_append (a b : string) :
  Js.substringFrom (String.length a) (a ++ b) = b.
Proof.
  induction a as [|c a IH]; [now destruct b | exact IH].
Qed.

Lemma substringFrom_suffix (n : nat) (s : string) :
  exists stem, s = stem ++ Js.substringFrom n s.
Proof.
  revert s. induction n as [|n IH]; intros s; [now exists ""|].
  destruct s as [|c s]; [now exists ""|].
  destruct (IH s) as (stem & E). exists (String c stem).
  cbn [Js.substringFrom append]. now rewrite <- E.
Qed.

Lemma lastIndexFrom_absent (c : ascii) (s : string) (i found : Z) :
  Js.all (fun x => negb (Ascii.eqb x c)) s = true ->
  Upload.lastIndexFrom c i s found = found.
Proof.
  revert i found. induction s as [|x s IH]; intros i found; [reflexivity|].
  cbn [Js.all Upload.lastIndexFrom]. intros H.
  apply andb_true_iff in H as [Hx Hs]. apply negb_true_iff in Hx.
  rewrite Hx. now apply IH.
Qed.

Lemma lastIndexFrom_last (c : ascii) (a b : string) (i found : Z) :
  Js.all (fun x => negb (Ascii.eqb x c)) b = true ->
  Upload.lastIndexFrom c i (a ++ String c b) found
  = i + Z.of_nat (String.length a).
Proof.
  intros Hb. revert i found. induction a as [|x a IH]; intros i found.
  - cbn [append Upload.lastIndexFrom String.length].
    rewrite Ascii.eqb_refl, lastIndexFrom_absent by exact Hb. lia.
  - cbn [append Upload.lastIndexFrom]. rewrite IH.
    cbn [String.length]. lia.
Qed.

Lemma lastIndexOf_last (a b : string) :
  noDot b = true ->
  Upload.lastIndexOf Js.dot (a ++ "." ++ b) = Z.of_nat (String.length a).
Proof.
  intros Hb. unfold Upload.lastIndexOf.
  change ("." ++ b) with (String Js.dot b).
  now rewrite lastIndexFrom_last.
Qed.

Lemma slice_at_length (a b : string) :
  Upload.slice (a ++ b) (Z.of_nat (String.length a)) = b.
Proof.
  unfold Upload.slice.
  destruct (Z.ltb_spec (Z.of_nat (String.length a)) 0); [lia|].
  rewrite Nat2Z.id. apply substringFrom_append.
Qed.

Lemma slice_suffix (s : string) (k : Z) :
  exists stem, s = stem ++ Upload.slice s k.
Proof. unfold Upload.slice. apply substringFrom_suffix. Qed.

(** The extension of a name that ends in a dot and dot-free letters. *)
Lemma extensionOf_last (stem rest : string) :
  noDot (Js.toLowerCase rest) = true ->
  Upload.extensionOf (stem ++ "." ++ rest) = "." ++ Js.toLowerCase rest.
Proof.
  intros Hrest. unfold Upload.extensionOf.
  rewrite toLowerCase_append, toLowerCase_append.
  change (Js.toLowerCase ".") with ".".
  rewrite lastIndexOf_last by exact Hrest. apply slice_at_length.
Qed.

Lemma includes_In (l : list string) (s : string) :
  Upload.includes l s = true <-> In s l.
Proof.
  unfold Upload.includes. rewrite existsb_exists. split.
  - intros (x & Hin & E). apply String.eqb_eq in E. now subst.
  - intros Hin. exists s. split; [exact Hin | apply String.eqb_refl].
Qed.

Lemma allowedExt_shape (e : string) :
  In e Upload.allowedExts ->
  exists rest, e = "." ++ rest /\ noDot rest = true
               /\ Js.toLowerCase rest = rest.
Proof.
  intros H. repeat (destruct H as [<- | H]; [eexists; repeat split|]).
  destruct H.
Qed.

Lemma toLowerCase_split (s a b : string) :
  Js.toLowerCase s = a ++ b ->
  exists a' b', s = a' ++ b' /\ Js.toLowerCase a' = a /\ Js.toLowerCase b' = b.
Proof.
  revert s. induction a as [|c a IH]; intros s E.
  - exists "", s. auto.
  - destruct s as [|x s]; [discriminate|].
    cbn [Js.toLowerCase append] in E. injection E as Ex E.
    destruct (IH s E) as (a' & b' & -> & Ha & Hb).
    exists (String x a'), b'. cbn [append Js.toLowerCase].
    now rewrite Ex, Ha.
Qed.

(** The extension test succeeds exactly on the names that end, in any
    letter case, with one of the six listed extensions. *)
Lemma extension_allowed_iff (fileName : string) :
  Upload.includes Upload.allowedExts (Upload.extensionOf fileName) = true
  <-> exists stem e, In e Upload.allowedExts
                     /\ Js.toLowerCase fileName = stem ++ e.
Proof.
  rewrite includes_In. split.
  - intros Hin. unfold Upload.extensionOf in Hin.
    destruct (slice_suffix (Js.toLowerCase fileName)
                (Upload.lastIndexOf Js.dot (Js.toLowerCase fileName)))
      as (stem & E).
    exists stem. eexists. split; [exact Hin | exact E].
  - intros (stem & e & Hin & E).
    destruct (allowedExt_shape e Hin) as (rest & -> & Hnd & Hlow).
    destruct (toLowerCase_split _ _ _ E) as (a & b & -> & Ha & Hb).
    destruct b as [|d b]; [discriminate|].
    cbn [Js.toLowerCase append] in Hb. injection Hb as Hd Hb.
    assert (Ed : String d b = "." ++ b).
    { cbn [append]. f_equal.
      revert Hd. clear.
      destruct d as [[] [] [] [] [] [] [] []]; vm_compute; congruence. }
    rewrite Ed, extensionOf_last by (now rewrite Hb).
    now rewrite Hb.
Qed.

Lemma mime_allowed_iff (mime : string) :
  negb (Js.isEmpty mime) && Upload.includes Upload.allowedTypes mime = true
  <-> In mime Upload.allowedTypes.
Proof.
  rewrite andb_true_iff, includes_In. split; [tauto|].
  intros H. split; [|exact H].
  destruct mime; [|reflexivity].
  cbn in H. intuition discriminate.
Qed.

(** X1: an uploaded file passes validation exactly when it is at most
    50 MB and either its MIME type is one of the eight listed types or
    its name ends, in any letter case, with one of the six listed
    extensions. *)
Theorem upload_accepted_iff (f : Upload.File) :
  Upload.validate (Upload.FileField f) = Upload.Accepted f
  <-> Upload.size f <= Upload.MAX_SIZE
      /\ (In (Upload.type f) Upload.allowedTypes
          \/ exists stem e, In e Upload.allowedExts
               /\ Js.toLowerCase (Upload.name f) = stem ++ e).
Proof.
  rewrite <- mime_allowed_iff, <- extension_allowed_iff, <- orb_true_iff.
  cbn [Upload.validate]. fold (Upload.isAllowed (Upload.type f) (Upload.name f)).
  destruct (Z.gtb_spec (Upload.size f) Upload.MAX_SIZE) as [Hbig | Hok].
  - split; [discriminate | lia].
  - destruct (Upload.isAllowed _ _); split; try tauto; try discriminate.
    intros [_ H]. discriminate.
Qed.

Example upload_examples :
  Upload.validate (Upload.FileField (Upload.mkFile "Report.Final.PDF" "" 52428800))
  = Upload.Accepted (Upload.mkFile "Report.Final.PDF" "" 52428800)
  /\ Upload.validate (Upload.FileField (Upload.mkFile "a.pdf" "application/pdf" 52428801))
     = Upload.Rejected 413 "File too large. Max 50MB."
  /\ Upload.validate (Upload.FileField (Upload.mkFile "pdf" "" 10))
     = Upload.Rejected 400 "Unsupported file type"
  /\ Upload.validate (Upload.FileField (Upload.mkFile "setup.exe" "application/zip" 10))
     = Upload.Accepted (Upload.mkFile "setup.exe" "application/zip" 10)
  /\ Upload.validate (Upload.TextField "x.pdf")
     = Upload.Rejected 400 "Unsupported file type"
  /\ Upload.isAllowed "" "" = false.
Proof. repeat split; reflexivity. Qed.

(** ** Names derived from the upload *)

Lemma sanitize_append (a b : string) :
  Upload.sanitize (a ++ b) = Upload.sanitize a ++ Upload.sanitize b.
Proof.
  induction a as [|c a IH]; [reflexivity|].
  cbn [append Upload.sanitize]. now rewrite IH.
Qed.

Lemma sanitizedChar_notSlash (c : ascii) :
  sanitizedChar c = true -> notSlash c = true.
Proof. destruct c as [[] [] [] [] [] [] [] []]; vm_compute; congruence. Qed.

Lemma sanitize_chars (s : string) : Js.all sanitizedChar (Upload.sanitize s) = true.
Proof.
  induction s as [|c s IH]; [reflexivity|].
  cbn [Upload.sanitize Js.all]. rewrite IH, andb_true_r.
  unfold sanitizedChar. destruct (Upload.safeChar c) eqn:E; [now rewrite E|].
  reflexivity.
Qed.

Lemma sanitize_fixes_sanitized (s : string) :
  Js.all sanitizedChar s = true -> Upload.sanitize s = s.
Proof.
  induction s as [|c s IH]; [reflexivity|].
  cbn [Js.all Upload.sanitize]. intros H.
  apply andb_true_iff in H as [Hc Hs]. rewrite (IH Hs). f_equal.
  unfold sanitizedChar in Hc. destruct (Upload.safeChar c); [reflexivity|].
  cbn [orb] in Hc. now apply Ascii.eqb_eq in Hc.
Qed.

(** X2: the sanitized file name keeps the length of the original, is
    made of letters, digits, [.], [-] and [_] only, so it holds no path
    separator, and sanitizing it again changes nothing; a name already
    made of such characters is left as it is. *)
Theorem sanitize_properties (s : string) :
  String.length (Upload.sanitize s) = String.length s
  /\ Js.all sanitizedChar (Upload.sanitize s) = true
  /\ noSlash (Upload.sanitize s) = true
  /\ Upload.sanitize (Upload.sanitize s) = Upload.sanitize s
  /\ (Js.all Upload.safeChar s = true -> Upload.sanitize s = s).
Proof.
  repeat split.
  - induction s as [|c s IH]; cbn; [reflexivity | now rewrite IH].
  - apply sanitize_chars.
  - apply (all_impl sanitizedChar notSlash);
      [exact sanitizedChar_notSlash | apply sanitize_chars].
  - apply sanitize_fixes_sanitized, sanitize_chars.
  - intros H. apply sanitize_fixes_sanitized.
    apply (all_impl Upload.safeChar sanitizedChar); [|exact H].
    intros c Hc. unfold sanitizedChar. now rewrite Hc.
Qed.

Lemma sanitize_properties_witness :
  Js.all Upload.safeChar "Q3-report.v2.docx" = true
  /\ Upload.sanitize "Q3-report.v2.docx" = "Q3-report.v2.docx"
  /\ Upload.sanitize "../../etc/pass wd" = ".._.._etc_pass_wd".
Proof.
  split; [reflexivity|]. split; [|reflexivity].
  apply (sanitize_properties "Q3-report.v2.docx"). reflexivity.
Defined.

Lemma stripExtension_last (stem ext : string) :
  Js.isEmpty ext = false -> Js.all Upload.extensionChar ext = true ->
  Upload.stripExtension (stem ++ "." ++ ext) = stem.
Proof.
  intros Hne Hext. induction stem as [|c stem IH].
  - cbn [append Upload.stripExtension]. rewrite Ascii.eqb_refl, Hne, Hext.
    reflexivity.
  - cbn [append Upload.stripExtension].
    assert (Hrest : Js.all Upload.extensionChar (stem ++ String "." ext) = false).
    { rewrite all_append. cbn [Js.all].
      change (Upload.extensionChar ".") with false.
      now rewrite andb_false_r. }
    cbn [append] in IH. rewrite Hrest, !andb_false_r. now rewrite IH.
Qed.

Lemma stripExtension_no_dot (s : string) :
  noDot s = true -> Upload.stripExtension s = s.
Proof.
  induction s as [|c s IH]; [reflexivity|].
  unfold noDot. cbn [Js.all Upload.stripExtension]. intros H.
  apply andb_true_iff in H as [Hc Hs]. apply negb_true_iff in Hc.
  rewrite Hc. cbn [andb]. now rewrite (IH Hs).
Qed.

Lemma sanitize_noDot (s : string) :
  noDot s = true -> noDot (Upload.sanitize s) = true.
Proof.
  unfold noDot. induction s as [|c s IH]; [reflexivity|].
  cbn [Js.all Upload.sanitize]. intros H.
  apply andb_true_iff in H as [Hc Hs]. rewrite (IH Hs), andb_true_r.
  destruct (Upload.safeChar c); [exact Hc | reflexivity].
Qed.

Lemma sanitize_extensionChars (s : string) :
  noDot s = true -> Js.all Upload.extensionChar (Upload.sanitize s) = true.
Proof.
  intros H. pose proof (sanitize_noDot s H) as Hd.
  pose proof (sanitize_chars s) as Hc.
  induction (Upload.sanitize s) as [|c t IH]; [reflexivity|].
  unfold noDot in Hd. cbn [Js.all] in *.
  apply andb_true_iff in Hd as [Hd1 Hd2].
  apply andb_true_iff in Hc as [Hc1 Hc2].
  rewrite (IH Hd2 Hc2), andb_true_r.
  unfold Upload.extensionChar. rewrite Hd1, andb_true_r.
  exact (sanitizedChar_notSlash c Hc1).
Qed.

(** X3: the name used for the download is the sanitized upload name
    without its last extension: for a name [stem.ext] whose [ext] is not
    empty and has no dot it is the sanitized [stem], whatever [stem]
    holds; a name without any dot is only sanitized. *)
Theorem originalName_strips_last_extension (f : Upload.File) :
  (forall stem ext,
      Upload.name f = stem ++ "." ++ ext ->
      Js.isEmpty ext = false -> noDot ext = true ->
      Upload.originalName f = Upload.sanitize stem)
  /\ (noDot (Upload.name f) = true ->
      Upload.originalName f = Upload.sanitize (Upload.name f)).
Proof.
  unfold Upload.originalName, Upload.sanitizedFileName. split.
  - intros stem ext -> Hne Hnd.
    rewrite !sanitize_append. change (Upload.sanitize ".") with ".".
    apply stripExtension_last.
    + destruct ext; [discriminate | reflexivity].
    + now apply sanitize_extensionChars.
  - intros Hnd. now apply stripExtension_no_dot, sanitize_noDot.
Qed.

Lemma originalName_strips_last_extension_witness :
  Upload.originalName (Upload.mkFile "annual report.2024.docx" "" 1)
  = "annual_report.2024"
  /\ Upload.originalName (Upload.mkFile "README" "" 1) = "README".
Proof.
  split.
  - apply (proj1 (originalName_strips_last_extension
                    (Upload.mkFile "annual report.2024.docx" "" 1))
             "annual report.2024" "docx"); reflexivity.
  - apply (proj2 (originalName_strips_last_extension
                    (Upload.mkFile "README" "" 1))). reflexivity.
Defined.

Example originalName_edge_cases :
  Upload.originalName (Upload.mkFile "archive.tar.gz" "" 1) = "archive.tar"
  /\ Upload.originalName (Upload.mkFile ".hwp" "" 1) = ""
  /\ Upload.originalName (Upload.mkFile "notes." "" 1) = "notes."
  /\ Upload.originalName (Upload.mkFile "a/b.pdf" "" 1) = "a_b".
Proof. repeat split; reflexivity. Qed.

(** ** Where the upload is staged *)

Lemma fileId_chars (now : N) (r : Num.fraction) :
  Js.all sessionChar (fileId now r) = true.
Proof.
  unfold fileId. rewrite !all_append.
  rewrite (all_impl Js.isDigit sessionChar _ isDigit_sessionChar
             (toDecimal_digits now)).
  rewrite (all_impl radix36Char sessionChar (randomSuffix r)).
  - reflexivity.
  - intros c Hc. now apply isAlnum_sessionChar, radix36_isAlnum.
  - apply randomSuffix_radix36.
Qed.

Lemma fileId_not_empty (now : N) (r : Num.fraction) :
  Js.isEmpty (fileId now r) = false.
Proof.
  unfold fileId. pose proof (toDecimal_not_empty now) as H.
  destruct (Num.toDecimal now); [discriminate | reflexivity].
Qed.

Lemma fileId_plain (now : N) (r : Num.fraction) : plain (fileId now r) = true.
Proof.
  apply nameChars_plain; [apply fileId_not_empty|].
  apply (all_impl sessionChar nameChar);
    [exact sessionChar_nameChar | apply fileId_chars].
Qed.

Lemma noSlash_append (a b : string) :
  noSlash a = true -> noSlash b = true -> noSlash (a ++ b) = true.
Proof. unfold noSlash. intros Ha Hb. now rewrite all_append, Ha, Hb. Qed.

Lemma plain_prefix (a b : string) :
  plain a = true -> noSlash b = true -> nameChar (match a with
                                                   | String c _ => c
                                                   | EmptyString => "."%char
                                                   end) = true ->
  plain (a ++ b) = true.
Proof.
  intros Ha Hb Hc. pose proof (plain_parts _ Ha) as (Hns & Hne & _).
  destruct a as [|c a]; [discriminate|].
  unfold plain. rewrite noSlash_append by assumption.
  cbn [append Js.isEmpty negb andb].
  assert (Hd : c <> Js.dot).
  { unfold nameChar in Hc. apply andb_true_iff in Hc as [_ Hc].
    now apply negb_true_iff, Ascii.eqb_neq in Hc. }
  assert (E1 : (String c (a ++ b) =? ".")%string = false)
    by (apply String.eqb_neq; intros E; inversion E; now apply Hd).
  assert (E2 : (String c (a ++ b) =? "..")%string = false)
    by (apply String.eqb_neq; intros E; inversion E; now apply Hd).
  now rewrite E1, E2.
Qed.

Lemma fileId_first_char (now : N) (r : Num.fraction) :
  nameChar (match fileId now r with
            | String c _ => c
            | EmptyString => "."%char
            end) = true.
Proof.
  pose proof (fileId_chars now r) as H. pose proof (fileId_not_empty now r) as Hne.
  destruct (fileId now r) as [|c s]; [discriminate|].
  cbn [Js.all] in H. apply andb_true_iff in H as [Hc _].
  now apply sessionChar_nameChar.
Qed.

Lemma basename_normalize_child (p seg : string) :
  Js.isEmpty p = false -> plain seg = true ->
  Path.basename (Path.normalize (p ++ "/" ++ seg)) = seg.
Proof.
  intros Hp Hseg. rewrite normalize_child by assumption.
  rewrite joinWith_snoc.
  destruct (Path.isAbsolute p), (rev _) as [|s l].
  - exact (basename_child "" seg Hseg).
  - rewrite <- append_assoc. now apply basename_child.
  - exact (basename_plain seg Hseg).
  - exact (basename_child (Js.joinWith "/" (s :: l)) seg Hseg).
Qed.

Lemma append_cancel_l (a b c : string) : a ++ b = a ++ c -> b = c.
Proof.
  induction a as [|x a IH]; [auto|].
  cbn [append]. intros E. injection E as E. auto.
Qed.

(** X4: the upload is staged as one file directly under the temporary
    directory, whatever its name: the staged path is
    [path.join(tempDir, fileId)] followed by [-] and the sanitized name,
    and its base name is [<fileId>-<sanitized name>].  The image
    directory handed to the converter is the same root followed by
    [-images], so the two paths coincide exactly when the sanitized
    name is [images]. *)
Theorem staged_upload_stays_in_tempDir
        (tempDir : string) (now : N) (r : Num.fraction)
        (f : Upload.File) (form : Convert.Form) :
  Js.isEmpty tempDir = false ->
  let id := fileId now r in
  let root := Path.join [tempDir; id] in
  let staged := Upload.tempFilePath tempDir id f in
  let imageDir := Convert.imageDir (Convert.convertOptions tempDir id form) in
  staged = root ++ "-" ++ Upload.sanitizedFileName f
  /\ Path.basename staged = id ++ "-" ++ Upload.sanitizedFileName f
  /\ imageDir = root ++ "-images"
  /\ (staged = imageDir <-> Upload.sanitizedFileName f = "images").
Proof.
  intros HT. cbv zeta.
  pose proof (fileId_plain now r) as Hid.
  pose proof (fileId_not_empty now r) as Hne.
  assert (Hsan : noSlash ("-" ++ Upload.sanitizedFileName f) = true).
  { apply (noSlash_append "-"); [reflexivity|].
    apply (all_impl sanitizedChar notSlash);
      [exact sanitizedChar_notSlash | apply sanitize_chars]. }
  assert (Hseg : plain (fileId now r ++ "-" ++ Upload.sanitizedFileName f) = true)
    by (apply plain_prefix; auto using fileId_first_char).
  assert (Himg : plain (fileId now r ++ "-images") = true)
    by (apply plain_prefix; auto using fileId_first_char).
  assert (E1 : Upload.tempFilePath tempDir (fileId now r) f
               = Path.join [tempDir; fileId now r]
                 ++ "-" ++ Upload.sanitizedFileName f).
  { unfold Upload.tempFilePath.
    rewrite !join2 by (assumption || (apply isEmpty_append_r; reflexivity)
                       || (now apply plain_parts in Hseg)).
    now apply normalize_child_suffix. }
  assert (E2 : Convert.imageDir (Convert.convertOptions tempDir (fileId now r) form)
               = Path.join [tempDir; fileId now r] ++ "-images").
  { cbn [Convert.convertOptions Convert.imageDir].
    rewrite !join2 by (assumption || (apply isEmpty_append_r; reflexivity)).
    now apply normalize_child_suffix. }
  split; [exact E1|]. split; [|split; [exact E2|]].
  - unfold Upload.tempFilePath.
    rewrite join2 by (assumption || (now apply plain_parts in Hseg)).
    now apply basename_normalize_child.
  - rewrite E1, E2. split.
    + intros E. apply append_cancel_l in E. now injection E.
    + now intros ->.
Qed.

Lemma staged_upload_stays_in_tempDir_witness :
  let f := Upload.mkFile "../../etc/cron.d/job.pdf" "application/pdf" 10 in
  let id := fileId 1755063487275 typicalFraction in
  Js.isEmpty "/srv/app/temp" = false
  /\ Upload.tempFilePath "/srv/app/temp" id f
     = "/srv/app/temp/1755063487275-m8yzrxi89zb-.._.._etc_cron.d_job.pdf"
  /\ Path.basename (Upload.tempFilePath "/srv/app/temp" id f)
     = id ++ "-" ++ Upload.sanitizedFileName f.
Proof.
  cbv zeta. split; [reflexivity|]. split; [reflexivity|].
  exact (proj1 (proj2 (staged_upload_stays_in_tempDir "/srv/app/temp"
                         1755063487275 typicalFraction
                         (Upload.mkFile "../../etc/cron.d/job.pdf"
                                        "application/pdf" 10)
                         (Convert.mkForm None None None) eq_refl))).
Defined.

Example staged_upload_named_images :
  let f := Upload.mkFile "images" "application/pdf" 10 in
  let id := fileId 1755063487275 typicalFraction in
  Upload.validate (Upload.FileField f) = Upload.Accepted f
  /\ Upload.tempFilePath "/srv/app/temp" id f
     = Convert.imageDir
         (Convert.convertOptions "/srv/app/temp" id (Convert.mkForm None None None)).
Proof. split; reflexivity. Qed.

(** ** What the serving handler answers *)

Lemma findAlternative_exists (fs : Fs.disk) (alts : list string) :
  forall p, fst (ServeImage.findAlternative fs alts) = Some p ->
            Fs.existsSync fs p = true.
Proof.
  induction alts as [|a alts IH]; intros p; cbn [ServeImage.findAlternative];
    [discriminate|].
  destruct (Fs.existsSync fs a) eqn:E.
  - cbn. now intros [= <-].
  - destruct (ServeImage.findAlternative fs alts) as [found tr].
    cbn in *. apply IH.
Qed.

Lemma findAlternative_none (fs : Fs.disk) (alts : list string) :
  (forall a, In a alts -> Fs.existsSync fs a = false) ->
  fst (ServeImage.findAlternative fs alts) = None.
Proof.
  induction alts as [|a alts IH]; intros H; [reflexivity|].
  cbn [ServeImage.findAlternative]. rewrite (H a) by now left.
  destruct (ServeImage.findAlternative fs alts) as [found tr].
  cbn in *. apply IH. intros x Hx. apply H. now right.
Qed.

Lemma serveFile_bytes (fs : Fs.disk) (tr : list Fs.op) (p : string)
      (b : list Byte.byte) :
  Http.payload (response (serveFile fs tr p)) = Http.Bytes b ->
  Http.status (response (serveFile fs tr p)) = 200
  /\ In (Fs.ReadFile p) (trace (serveFile fs tr p))
  /\ Fs.readFile fs p = Some b.
Proof.
  unfold serveFile. destruct (Fs.readFile fs p) as [bytes|]; cbn;
    [|discriminate].
  intros [= ->]. repeat split. apply in_or_app. right. now left.
Qed.

Lemma resolveAndServe_bytes (env : Env) (fs : Fs.disk) (session n : string)
      (b : list Byte.byte) :
  let o := ServeImage.resolveAndServe env fs session n in
  Http.payload (response o) = Http.Bytes b ->
  Http.status (response o) = 200
  /\ exists p, In (Fs.ReadFile p) (trace o)
               /\ Fs.existsSync fs p = true /\ Fs.readFile fs p = Some b.
Proof.
  cbv zeta. unfold ServeImage.resolveAndServe. cbv zeta.
  destruct (_ || _); [discriminate|].
  destruct (Fs.existsSync fs _) eqn:E; cbn [negb].
  - intros H. apply serveFile_bytes in H as (Hs & Hin & Hr).
    split; [exact Hs|]. eexists. repeat split; eassumption.
  - pose proof (findAlternative_exists fs
      (ServeImage.alternativePaths (tempDirOf env) session (Path.basename n)))
      as Hex.
    destruct (ServeImage.findAlternative fs _) as [[alt|] probes];
      cbn [fst] in Hex; [|discriminate].
    intros H. apply serveFile_bytes in H as (Hs & Hin & Hr).
    split; [exact Hs|]. exists alt. repeat split; auto.
Qed.

(** X5: file bytes leave the serving handler only in a 200 answer to a
    request that carried both parameters, a well-formed session and an
    unexpired timestamp, and they are the content of a file that
    [existsSync] reported and [readFile] returned. *)
Theorem served_bytes_come_from_disk
        (env : Env) (fs : Fs.disk) (now : Z) (q : Query) (b : list Byte.byte) :
  let o := ServeImage.GET env fs now q in
  Http.payload (response o) = Http.Bytes b ->
  Http.status (response o) = 200
  /\ reachesPathCheck now q
  /\ detached o = []
  /\ exists p, In (Fs.ReadFile p) (trace o)
               /\ Fs.existsSync fs p = true /\ Fs.readFile fs p = Some b.
Proof.
  cbv zeta.
  destruct (GET_cases env fs now q)
    as [[-> _] | [[-> _] | [[-> _] | [E Hr]]]]; try discriminate.
  rewrite E. intros H.
  destruct (resolveAndServe_bytes env fs _ _ b H) as (Hs & Hp).
  split; [exact Hs|]. split; [exact Hr|]. split; [|exact Hp].
  revert H. clear. unfold ServeImage.resolveAndServe. cbv zeta.
  destruct (_ || _); [discriminate|].
  destruct (Fs.existsSync fs _); cbn [negb].
  - unfold serveFile. now destruct (Fs.readFile fs _).
  - destruct (ServeImage.findAlternative fs _) as [[alt|] probes];
      [|discriminate].
    unfold serveFile. now destruct (Fs.readFile fs _).
Qed.

Lemma served_bytes_come_from_disk_witness :
  let q := mkQuery (Some "image_1.png") (Some sampleSession) in
  let o := ServeImage.GET localEnv sampleDisk sampleNow q in
  Http.payload (response o) = Http.Bytes [Byte.x89; Byte.x50; Byte.x4e; Byte.x47]
  /\ Http.status (response o) = 200
  /\ reachesPathCheck sampleNow q.
Proof.
  cbv zeta.
  assert (H : Http.payload
                (response (ServeImage.GET localEnv sampleDisk sampleNow
                             (mkQuery (Some "image_1.png") (Some sampleSession))))
              = Http.Bytes [Byte.x89; Byte.x50; Byte.x4e; Byte.x47])
    by reflexivity.
  split; [exact H|].
  destruct (served_bytes_come_from_disk localEnv sampleDisk sampleNow
              (mkQuery (Some "image_1.png") (Some sampleSession)) _ H)
    as (Hs & Hr & _).
  split; assumption.
Defined.

(** X6: the alternate layouts only ever replace a 404: whenever the
    handler without them answers anything but 404, and whenever none of
    the three alternate paths exists, both versions of the handler give
    the same response. *)
Theorem alternates_only_replace_404
        (env : Env) (fs : Fs.disk) (now : Z) (q : Query) :
  let full := ServeImage.GET env fs now q in
  let plain_ := ServeImagePlain.GET env fs now q in
  (Http.status (response plain_) <> 404 -> response full = response plain_)
  /\ ((forall alt,
         In alt (ServeImage.alternativePaths (tempDirOf env)
                   (paramOf (q_session q)) (Path.basename (paramOf (q_path q)))) ->
         Fs.existsSync fs alt = false) ->
      response full = response plain_).
Proof.
  cbv zeta. unfold ServeImage.GET, ServeImagePlain.GET.
  destruct (_ || _); [split; reflexivity|]. cbv zeta.
  destruct (negb (sessionFormat _)); [split; reflexivity|].
  destruct (expired _ _); [split; reflexivity|].
  unfold ServeImage.resolveAndServe, ServeImagePlain.resolveAndServe. cbv zeta.
  destruct (_ || _); [split; reflexivity|].
  destruct (Fs.existsSync fs _) eqn:E; cbn [negb].
  - unfold serveFile. destruct (Fs.readFile fs _); split; reflexivity.
  - split.
    + cbn. intros H. now elim H.
    + intros Hnone. rewrite (surjective_pairing (ServeImage.findAlternative _ _)).
      now rewrite (findAlternative_none fs _ Hnone).
Qed.

Lemma alternates_only_replace_404_witness :
  let q := mkQuery (Some "image_1.png") (Some sampleSession) in
  Http.status (response (ServeImagePlain.GET localEnv sampleDisk sampleNow q))
  <> 404
  /\ response (ServeImage.GET localEnv sampleDisk sampleNow q)
     = response (ServeImagePlain.GET localEnv sampleDisk sampleNow q).
Proof.
  cbv zeta.
  assert (H : Http.status
                (response (ServeImagePlain.GET localEnv sampleDisk sampleNow
                             (mkQuery (Some "image_1.png") (Some sampleSession))))
              <> 404) by (cbn; lia).
  split; [exact H|].
  exact (proj1 (alternates_only_replace_404 localEnv sampleDisk sampleNow
                  (mkQuery (Some "image_1.png") (Some sampleSession))) H).
Defined.

(** ** From conversion to serving *)

Lemma fileId_sessionFormat (now : N) (r : Num.fraction) :
  sessionFormat (fileId now r) = negb (Js.isEmpty (randomSuffix r)).
Proof.
  unfold sessionFormat, fileId.
  rewrite sessionFormatRest_digits by apply toDecimal_digits.
  rewrite toDecimal_not_empty. cbn [negb orb andb].
  rewrite (all_impl radix36Char Js.isAlnum (randomSuffix r) radix36_isAlnum
             (randomSuffix_radix36 r)).
  apply andb_true_r.
Qed.

Lemma GET_minted (env : Env) (fs : Fs.disk) (created : N) (r : Num.fraction)
      (now : Z) (imagePath : string) :
  Js.isEmpty (randomSuffix r) = false -> Js.isEmpty imagePath = false ->
  ServeImage.GET env fs now (mkQuery (Some imagePath) (Some (fileId created r)))
  = if now - Z.of_N created >? 60 * 60 * 1000
    then mkOutcome (Http.reply 410 "Session expired") []
           [CleanupSession
              (Path.join [tempDirOf env; fileId created r ++ "-images"])]
    else ServeImage.resolveAndServe env fs (fileId created r) imagePath.
Proof.
  intros Hr Hp.
  assert (Hs : sessionFormat (fileId created r) = true)
    by (now rewrite fileId_sessionFormat, Hr).
  now rewrite (GET_well_formed env fs now _ _ Hs Hp), sessionTimestamp_fileId.
Qed.



(** X8: an image the converter saved in the image directory of its
    request, under a single-component name without [..], is served by
    the serving handler for [path = name] and [session = fileId] as long
    as the session is not expired: the answer is 200 with the bytes of
    that file.  (Both handlers derive the temporary directory from the
    environment in the same way.) *)
Theorem converted_image_is_served
        (env : Env) (fs : Fs.disk) (created : N) (r : Num.fraction)
        (form : Convert.Form) (now : Z) (imageName : string)
        (bytes : list Byte.byte) :
  let id := fileId created r in
  let imageDir := Convert.imageDir (Convert.convertOptions (tempDirOf env) id form) in
  Js.isEmpty (randomSuffix r) = false ->
  plain imageName = true -> Js.includes imageName ".." = false ->
  Fs.existsSync fs (imageDir ++ "/" ++ imageName) = true ->
  Fs.readFile fs (imageDir ++ "/" ++ imageName) = Some bytes ->
  now <= Z.of_N created + 3600000 ->
  response (ServeImage.GET env fs now (mkQuery (Some imageName) (Some id)))
  = Http.mkResponse 200 (Http.Bytes bytes).
Proof.
  cbv zeta. intros Hr Hn Hdd Hex Hrd Hfresh.
  pose proof (plain_parts _ Hn) as (Hns & Hne & _).
  rewrite (GET_minted env fs created r now _ Hr Hne).
  destruct (Z.gtb_spec (now - Z.of_N created) (60 * 60 * 1000)); [lia|].
  pose proof (fileId_plain created r) as Hid.
  assert (Himg : plain (fileId created r ++ "-images") = true)
    by (apply plain_prefix; auto using fileId_first_char).
  assert (E : Path.join [tempDirOf env; fileId created r ++ "-images"; imageName]
              = Convert.imageDir
                  (Convert.convertOptions (tempDirOf env) (fileId created r) form)
                ++ "/" ++ imageName).
  { cbn [Convert.convertOptions Convert.imageDir].
    rewrite join3, join2
      by (try apply tempDir_not_empty; try apply isEmpty_append_r;
          try reflexivity; assumption).
    apply normalize_grandchild; auto using tempDir_not_empty. }
  unfold ServeImage.resolveAndServe. cbv zeta.
  rewrite (basename_plain _ Hn), String.eqb_refl, Hdd. cbn [negb orb].
  rewrite E, Hex. cbn [negb]. unfold serveFile. now rewrite Hrd.
Qed.

Lemma converted_image_is_served_witness :
  let env := {| VERCEL := Some "1"; VERCEL_ENV := None; cwd := "/var/task" |} in
  let id := fileId 1755063487275 typicalFraction in
  let file := "/tmp/1755063487275-m8yzrxi89zb-images/slide-1.png" in
  let fs := {| Fs.existsSync := fun p => (p =? file)%string;
               Fs.readFile := fun p =>
                 if (p =? file)%string then Some [Byte.x89] else None |} in
  Convert.imageDir (Convert.convertOptions (tempDirOf env) id
                                           (Convert.mkForm None None None))
  = "/tmp/1755063487275-m8yzrxi89zb-images"
  /\ response (ServeImage.GET env fs 1755063490000
                 (mkQuery (Some "slide-1.png") (Some id)))
     = Http.mkResponse 200 (Http.Bytes [Byte.x89]).
Proof.
  cbv zeta. split; [reflexivity|].
  apply (converted_image_is_served _ _ 1755063487275 typicalFraction
           (Convert.mkForm None None None)); try reflexivity. lia.
Defined.

Example dotted_image_name_is_refused :
  ServeImage.GET localEnv sampleDisk sampleNow
    (mkQuery (Some "fig..1.png") (Some sampleSession))
  = finish 403 "Invalid path" [].
Proof. reflexivity. Qed.

(** ** What the sweep keeps and what it counts *)

Lemma lookup_In (file : string) (n : Cleanup.node) (d : Cleanup.directory) :
  Cleanup.lookup file d = Some n -> In (file, n) d.
Proof.
  induction d as [|[name m] d IH]; [discriminate|].
  cbn [Cleanup.lookup]. destruct (String.eqb_spec name file) as [-> | Hne].
  - intros [= ->]. now left.
  - intros H. right. now apply IH.
Qed.

Lemma In_lookup (file : string) (n : Cleanup.node) (d : Cleanup.directory) :
  NoDup (map fst d) -> In (file, n) d -> Cleanup.lookup file d = Some n.
Proof.
  induction d as [|[name m] d IH]; [intros _ []|].
  cbn [map fst]. intros Hnd [E | Hin].
  - injection E as -> ->. apply lookup_head.
  - inversion Hnd as [|? ? Hfresh Hnd']; subst.
    rewrite lookup_other; [now apply IH|].
    intros ->. apply Hfresh. now apply (in_map fst) in Hin.
Qed.

Lemma remove_In (file : string) (e : string * Cleanup.node)
      (d : Cleanup.directory) :
  In e (Cleanup.remove file d) <-> In e d /\ fst e <> file.
Proof.
  unfold Cleanup.remove. rewrite filter_In.
  now rewrite negb_true_iff, String.eqb_neq.
Qed.

Lemma remove_names (file : string) (d : Cleanup.directory) (x : string) :
  In x (map fst (Cleanup.remove file d)) -> In x (map fst d).
Proof.
  rewrite !in_map_iff. intros (e & <- & He). apply remove_In in He as [He _].
  now exists e.
Qed.

Lemma remove_NoDup (file : string) (d : Cleanup.directory) :
  NoDup (map fst d) -> NoDup (map fst (Cleanup.remove file d)).
Proof.
  induction d as [|[name m] d IH]; [auto|].
  cbn [map fst]. intros Hnd. inversion Hnd as [|? ? Hfresh Hnd']; subst.
  unfold Cleanup.remove in *. cbn [filter fst].
  destruct (negb (name =? file)%string); [|now apply IH].
  cbn [map fst]. constructor; [|now apply IH].
  intros H. apply Hfresh. now apply (remove_names file) in H.
Qed.

Lemma remove_length (file : string) (n : Cleanup.node) (d : Cleanup.directory) :
  NoDup (map fst d) -> Cleanup.lookup file d = Some n ->
  S (List.length (Cleanup.remove file d)) = List.length d.
Proof.
  induction d as [|[name m] d IH]; [discriminate|].
  cbn [map fst]. intros Hnd. inversion Hnd as [|? ? Hfresh Hnd']; subst.
  destruct (String.eqb_spec name file) as [-> | Hne].
  - intros _. now rewrite remove_head.
  - rewrite lookup_other by exact Hne. intros Hl.
    unfold Cleanup.remove in *. cbn [filter fst].
    apply String.eqb_neq in Hne. rewrite Hne. cbn [negb List.length].
    now rewrite (IH Hnd' Hl).
Qed.

(** One turn of the loop either leaves the directory as it is or
    removes one entry that [stat] saw as older than the window. *)
Lemma sweep_step (now : Z) (file : string) (rest : list string)
      (d : Cleanup.directory) (cleaned : nat) :
  Cleanup.sweep now (file :: rest) d cleaned = (cleaned, d)
  \/ Cleanup.sweep now (file :: rest) d cleaned
     = Cleanup.sweep now rest d cleaned
  \/ (exists n, Cleanup.lookup file d = Some n
                /\ now - Cleanup.mtime n > Cleanup.CLEANUP_AGE_MS
                /\ Cleanup.sweep now (file :: rest) d cleaned
                   = Cleanup.sweep now rest (Cleanup.remove file d) (S cleaned)).
Proof.
  cbn [Cleanup.sweep]. unfold Cleanup.stat, Cleanup.unlink, Cleanup.rm.
  destruct (Cleanup.lookup file d) as [n|] eqn:El; [|now left].
  destruct (Cleanup.nodeKind n) eqn:Ek; [| |now left];
    (destruct (Z.gtb_spec (now - Cleanup.mtime n) Cleanup.CLEANUP_AGE_MS)
      as [Hold | Hyoung]; [|now right; left]);
    (destruct (Cleanup.locked n); [now right; left|]);
    right; right; exists n; repeat split; auto; lia.
Qed.

Lemma sweep_invariant (now : Z) (files : list string) :
  forall (d : Cleanup.directory) (cleaned : nat),
    NoDup (map fst d) ->
    let '(count, d') := Cleanup.sweep now files d cleaned in
    (count + List.length d' = cleaned + List.length d)%nat
    /\ (forall e, In e d' -> In e d)
    /\ (forall e, In e d ->
                  now - Cleanup.mtime (snd e) <= Cleanup.CLEANUP_AGE_MS ->
                  In e d').
Proof.
  induction files as [|file rest IH]; intros d cleaned Hnd.
  - cbn. auto.
  - destruct (sweep_step now file rest d cleaned)
      as [-> | [-> | (n & Hl & Hold & ->)]].
    + auto.
    + now apply IH.
    + specialize (IH (Cleanup.remove file d) (S cleaned)
                     (remove_NoDup file d Hnd)).
      destruct (Cleanup.sweep now rest (Cleanup.remove file d) (S cleaned))
        as [count d'].
      destruct IH as (Hcount & Hsub & Hkeep).
      pose proof (remove_length file n d Hnd Hl) as Hlen.
      split; [lia|]. split.
      * intros e He. now apply Hsub, remove_In in He.
      * intros [name m] He Hyoung. apply Hkeep; [|exact Hyoung].
        apply remove_In. split; [exact He|].
        cbn [fst snd] in *. intros ->.
        rewrite (In_lookup _ _ _ Hnd He) in Hl. injection Hl as ->. lia.
Qed.

(** X9: the sweep never removes an entry whose age is within the
    retention window, whatever else is in the directory and whatever
    fails; it never adds an entry; and the count it reports is exactly
    the number of entries that are gone. *)
Theorem sweep_keeps_young_and_counts_removed
        (now : Z) (d : Cleanup.directory) :
  NoDup (Cleanup.readdir d) ->
  let count := fst (Cleanup.cleanDirectory now d) in
  let d' := snd (Cleanup.cleanDirectory now d) in
  (forall e, In e d ->
             now - Cleanup.mtime (snd e) <= Cleanup.CLEANUP_AGE_MS -> In e d')
  /\ (forall e, In e d' -> In e d)
  /\ (count + List.length d' = List.length d)%nat.
Proof.
  intros Hnd. cbv zeta. unfold Cleanup.cleanDirectory.
  pose proof (sweep_invariant now (Cleanup.readdir d) d 0 Hnd) as H.
  destruct (Cleanup.sweep now (Cleanup.readdir d) d 0) as [count d'].
  cbn [fst snd]. tauto.
Qed.

Lemma sweep_keeps_young_and_counts_removed_witness :
  let fresh := ("new.md", Cleanup.mkNode 7000000 Cleanup.RegularFile false) in
  let d := [("old.zip", Cleanup.mkNode 0 Cleanup.RegularFile false);
            ("gone", Cleanup.mkNode 0 Cleanup.DanglingLink false);
            fresh;
            ("old-images", Cleanup.mkNode 0 Cleanup.Directory false)] in
  NoDup (Cleanup.readdir d)
  /\ In fresh (snd (Cleanup.cleanDirectory 7200000 d))
  /\ fst (Cleanup.cleanDirectory 7200000 d) = 1%nat.
Proof.
  cbv zeta.
  assert (Hnd : NoDup (Cleanup.readdir
                  [("old.zip", Cleanup.mkNode 0 Cleanup.RegularFile false);
                   ("gone", Cleanup.mkNode 0 Cleanup.DanglingLink false);
                   ("new.md", Cleanup.mkNode 7000000 Cleanup.RegularFile false);
                   ("old-images", Cleanup.mkNode 0 Cleanup.Directory false)]))
    by (cbn; repeat constructor; cbn; intuition discriminate).
  split; [exact Hnd|]. split; [|reflexivity].
  apply (proj1 (sweep_keeps_young_and_counts_removed 7200000 _ Hnd)).
  - cbn. tauto.
  - cbn. unfold Cleanup.CLEANUP_AGE_MS. lia.
Defined.

Lemma filter_names {A} (f : string * A -> bool) (l : list (string * A))
      (x : string) :
  In x (map fst (filter f l)) -> In x (map fst l).
Proof.
  rewrite !in_map_iff. intros (e & <- & He). apply filter_In in He as [He _].
  now exists e.
Qed.

Lemma filter_NoDup {A} (f : string * A -> bool) (l : list (string * A)) :
  NoDup (map fst l) -> NoDup (map fst (filter f l)).
Proof.
  induction l as [|e l IH]; [auto|].
  cbn [map filter]. intros Hnd. inversion Hnd as [|? ? Hfresh Hnd']; subst.
  destruct (f e); [|now apply IH].
  cbn [map]. constructor; [|now apply IH].
  intros H. apply Hfresh. now apply filter_names in H.
Qed.

Lemma filter_allVisible (f : string * Cleanup.node -> bool)
      (d : Cleanup.directory) :
  Cleanup.allVisible d -> Cleanup.allVisible (filter f d).
Proof.
  intros H e He. apply filter_In in He as [He _]. now apply H.
Qed.

Lemma filter_none {A} (f : A -> bool) (l : list A) :
  filter f (filter (fun x => negb (f x)) l) = [].
Proof.
  induction l as [|x l IH]; [reflexivity|].
  cbn [filter]. destruct (f x) eqn:E; cbn [negb filter]; [exact IH|].
  now rewrite E.
Qed.

Lemma filter_again {A} (f : A -> bool) (l : list A) :
  filter f (filter f l) = filter f l.
Proof.
  induction l as [|x l IH]; [reflexivity|].
  cbn [filter]. destruct (f x) eqn:E; [|exact IH].
  cbn [filter]. now rewrite E, IH.
Qed.

(** X10: sweeping once more at the same instant removes nothing: in a
    directory whose entries can all be examined, a second sweep reports
    0 and leaves what the first one left. *)
Theorem sweep_is_idempotent (now : Z) (d : Cleanup.directory) :
  NoDup (Cleanup.readdir d) -> Cleanup.allVisible d ->
  Cleanup.cleanDirectory now (snd (Cleanup.cleanDirectory now d))
  = (0%nat, snd (Cleanup.cleanDirectory now d)).
Proof.
  intros Hnd Hvis. unfold Cleanup.cleanDirectory, Cleanup.readdir in *.
  pose proof (sweep_all now d [] 0 Hnd Hvis) as E1. cbn [app] in E1.
  rewrite E1. cbn [snd].
  pose proof (sweep_all now
                (filter (fun e => negb (Cleanup.reclaimable now e)) d) [] 0
                (filter_NoDup _ d Hnd) (filter_allVisible _ d Hvis)) as E2.
  cbn [app] in E2. rewrite E2.
  now rewrite filter_none, filter_again.
Qed.

Lemma sweep_is_idempotent_witness :
  let d := [("a.zip", Cleanup.mkNode 0 Cleanup.RegularFile false);
            ("b.zip", Cleanup.mkNode 0 Cleanup.RegularFile true);
            ("c.md", Cleanup.mkNode 7000000 Cleanup.RegularFile false)] in
  Cleanup.cleanDirectory 7200000 d
  = (1%nat, [("b.zip", Cleanup.mkNode 0 Cleanup.RegularFile true);
             ("c.md", Cleanup.mkNode 7000000 Cleanup.RegularFile false)])
  /\ Cleanup.cleanDirectory 7200000 (snd (Cleanup.cleanDirectory 7200000 d))
     = (0%nat, snd (Cleanup.cleanDirectory 7200000 d)).
Proof.
  cbv zeta. split; [reflexivity|].
  apply sweep_is_idempotent.
  - cbn. repeat constructor; cbn; intuition discriminate.
  - intros e [<- | [<- | [<- | []]]]; discriminate.
Defined.

(** The sweep over a readable front part of the directory. *)
Lemma sweep_prefix (now : Z) (es : Cleanup.directory) :
  forall (kept tail : Cleanup.directory) (more : list string) (cleaned : nat),
    NoDup (map fst (kept ++ es ++ tail)%list) -> Cleanup.allVisible es ->
    Cleanup.sweep now (map fst es ++ more) (kept ++ es ++ tail)%list cleaned
    = Cleanup.sweep now more
        (kept ++ filter (fun e => negb (Cleanup.reclaimable now e)) es ++ tail)%list
        (cleaned + List.length (filter (Cleanup.reclaimable now) es))%nat.
Proof.
  induction es as [|[file n] es IH]; intros kept tail more cleaned Hnd Hvis.
  - cbn. now rewrite Nat.add_0_r.
  - assert (Hvis' : Cleanup.allVisible es)
      by (intros e He; apply Hvis; now right).
    assert (Hk : Cleanup.nodeKind n <> Cleanup.DanglingLink)
      by (apply (Hvis (file, n)); now left).
    assert (Hnd1 : NoDup (map fst ((kept ++ [(file, n)]) ++ es ++ tail)%list))
      by (now rewrite <- app_assoc).
    assert (Hnd0 : NoDup (map fst kept ++ file :: map fst (es ++ tail))%list)
      by (now rewrite map_app in Hnd).
    pose proof (NoDup_remove_2 _ _ _ Hnd0) as Hfresh.
    assert (Hnd' : NoDup (map fst (kept ++ es ++ tail)%list))
      by (rewrite map_app; exact (NoDup_remove_1 _ _ _ Hnd0)).
    assert (Hfk : ~ In file (map fst kept))
      by (intros H; apply Hfresh, in_or_app; now left).
    assert (Hfe : ~ In file (map fst (es ++ tail)%list))
      by (intros H; apply Hfresh, in_or_app; now right).
    assert (Hl : Cleanup.lookup file (kept ++ ((file, n) :: es) ++ tail)%list
                 = Some n)
      by (rewrite lookup_app_fresh by exact Hfk; apply lookup_head).
    assert (Hstep : forall c,
               Cleanup.sweep now (map fst es ++ more)
                 (kept ++ ((file, n) :: es) ++ tail)%list c
               = Cleanup.sweep now more
                   (kept ++ (file, n)
                      :: filter (fun e => negb (Cleanup.reclaimable now e)) es
                      ++ tail)%list
                   (c + List.length (filter (Cleanup.reclaimable now) es))%nat).
    { intros c.
      pose proof (IH (kept ++ [(file, n)])%list tail more c Hnd1 Hvis') as E.
      rewrite <- !app_assoc in E. exact E. }
    cbn [map fst filter app].
    destruct (Cleanup.reclaimable now (file, n)) eqn:Hr; cbn [negb app].
    + unfold Cleanup.reclaimable in Hr. cbn [snd] in Hr.
      apply andb_true_iff in Hr as [Hold Hlock].
      apply negb_true_iff in Hlock. apply Z.gtb_lt in Hold.
      rewrite (sweep_removes now file _ n) by (auto; lia).
      rewrite remove_app, (remove_fresh file kept) by assumption.
      rewrite remove_head by assumption.
      rewrite IH by assumption.
      cbn [List.length]. f_equal. lia.
    + unfold Cleanup.reclaimable in Hr. cbn [snd] in Hr.
      destruct (Z.gtb_spec (now - Cleanup.mtime n) Cleanup.CLEANUP_AGE_MS)
        as [Hold | Hyoung]; cbn [andb] in Hr.
      * apply negb_false_iff in Hr.
        rewrite (sweep_skips now (Cleanup.mtime n));
          [apply Hstep | now apply stat_visible | lia
           | now apply (locked_cannotRemove _ n)].
      * rewrite (sweep_keeps now file _ n) by (auto; lia). apply Hstep.
Qed.

(** X11: the sweep ends at the first entry [stat] cannot read (a link
    whose target is gone): the entries listed before it are swept, and
    every entry listed after it stays, expired or not. *)
Theorem sweep_stops_at_unreadable_entry
        (now : Z) (before after : Cleanup.directory)
        (link : string) (n : Cleanup.node) :
  NoDup (Cleanup.readdir (before ++ (link, n) :: after)%list) ->
  Cleanup.allVisible before ->
  Cleanup.nodeKind n = Cleanup.DanglingLink ->
  Cleanup.cleanDirectory now (before ++ (link, n) :: after)%list
  = (List.length (filter (Cleanup.reclaimable now) before),
     (filter (fun e => negb (Cleanup.reclaimable now e)) before
      ++ (link, n) :: after)%list).
Proof.
  intros Hnd Hvis Hk. unfold Cleanup.cleanDirectory, Cleanup.readdir in *.
  rewrite map_app.
  pose proof (sweep_prefix now before [] ((link, n) :: after)
                (map fst ((link, n) :: after)) 0 Hnd Hvis) as E.
  cbn [app] in E. rewrite E.
  cbn [map fst Cleanup.sweep Nat.add].
  assert (Hl : Cleanup.lookup link
                 (filter (fun e => negb (Cleanup.reclaimable now e)) before
                  ++ (link, n) :: after)%list = Some n).
  { rewrite lookup_app_fresh; [apply lookup_head|].
    intros H. apply filter_names in H.
    rewrite map_app in Hnd. cbn [map fst] in Hnd.
    apply (NoDup_remove_2 _ _ _ Hnd), in_or_app. now left. }
  unfold Cleanup.stat. now rewrite Hl, Hk.
Qed.

Lemma sweep_stops_at_unreadable_entry_witness :
  let before := [("a.zip", Cleanup.mkNode 0 Cleanup.RegularFile false)] in
  let after := [("z.zip", Cleanup.mkNode 0 Cleanup.RegularFile false)] in
  let n := Cleanup.mkNode 0 Cleanup.DanglingLink false in
  Cleanup.cleanDirectory 7200000 (before ++ ("link", n) :: after)%list
  = (1%nat, ("link", n) :: after).
Proof.
  cbv zeta.
  apply (sweep_stops_at_unreadable_entry 7200000
           [("a.zip", Cleanup.mkNode 0 Cleanup.RegularFile false)]
           [("z.zip", Cleanup.mkNode 0 Cleanup.RegularFile false)]).
  - cbn. repeat constructor; cbn; intuition discriminate.
  - intros e [<- | []]. discriminate.
  - reflexivity.
Defined.

(** ** Removing the staged files *)

Lemma lookup_remove_same (file : string) (d : Cleanup.directory) :
  Cleanup.lookup file (Cleanup.remove file d) = None.
Proof.
  induction d as [|[name n] d IH]; [reflexivity|].
  unfold Cleanup.remove in *. cbn [filter fst].
  destruct (String.eqb_spec name file) as [-> | Hne]; cbn [negb]; [exact IH|].
  now rewrite lookup_other.
Qed.

Lemma lookup_remove_other (file other : string) (d : Cleanup.directory) :
  file <> other ->
  Cleanup.lookup file (Cleanup.remove other d) = Cleanup.lookup file d.
Proof.
  intros Hne. induction d as [|[name n] d IH]; [reflexivity|].
  unfold Cleanup.remove in *. cbn [filter fst].
  destruct (String.eqb_spec name other) as [-> | Hno]; cbn [negb].
  - rewrite IH. symmetry. apply lookup_other. congruence.
  - cbn [Cleanup.lookup]. now rewrite IH.
Qed.

Lemma existsSync_removed (file : string) (d : Cleanup.directory) :
  TempFiles.existsSync file (Cleanup.remove file d) = false.
Proof.
  unfold TempFiles.existsSync, Cleanup.stat. now rewrite lookup_remove_same.
Qed.

Lemma existsSync_remove_other (file other : string) (d : Cleanup.directory) :
  file <> other ->
  TempFiles.existsSync file (Cleanup.remove other d)
  = TempFiles.existsSync file d.
Proof.
  intros H. unfold TempFiles.existsSync, Cleanup.stat.
  now rewrite lookup_remove_other.
Qed.

Lemma unlink_cases (file : string) (d : Cleanup.directory) :
  Cleanup.unlink file d = Cleanup.Throw
  \/ Cleanup.unlink file d = Cleanup.Ok (Cleanup.remove file d).
Proof.
  unfold Cleanup.unlink. destruct (Cleanup.lookup file d) as [n|]; [|now left].
  destruct (Cleanup.nodeKind n), (Cleanup.locked n); auto.
Qed.

Lemma rm_cases (file : string) (d : Cleanup.directory) :
  TempFiles.existsSync file d = true ->
  Cleanup.rm file d = Cleanup.Throw
  \/ Cleanup.rm file d = Cleanup.Ok (Cleanup.remove file d).
Proof.
  unfold TempFiles.existsSync, Cleanup.stat, Cleanup.rm.
  destruct (Cleanup.lookup file d) as [n|]; [|discriminate].
  destruct (Cleanup.locked n); auto.
Qed.

Lemma removeBoth_cases (t i : string) (d : Cleanup.directory) :
  let r := TempFiles.removeBoth t i d in
  (* the staged file was absent or removed *)
  (exists d1, (d1 = d /\ TempFiles.existsSync t d = false
               \/ d1 = Cleanup.remove t d /\ TempFiles.existsSync t d = true)
              /\ (r = (Cleanup.Ok d1, d1) /\ TempFiles.existsSync i d1 = false
                  \/ r = (Cleanup.Throw, d1) /\ TempFiles.existsSync i d1 = true
                     /\ Cleanup.rm i d1 = Cleanup.Throw
                  \/ r = (Cleanup.Ok (Cleanup.remove i d1), Cleanup.remove i d1)
                     /\ TempFiles.existsSync i d1 = true))
  \/ (r = (Cleanup.Throw, d) /\ TempFiles.existsSync t d = true
      /\ Cleanup.unlink t d = Cleanup.Throw).
Proof.
  cbv zeta. unfold TempFiles.removeBoth.
  assert (Hsecond : forall d1,
             let r2 := if TempFiles.existsSync i d1
                       then match Cleanup.rm i d1 with
                            | Cleanup.Ok d2 => (Cleanup.Ok d2, d2)
                            | Cleanup.Throw => (Cleanup.Throw, d1)
                            end
                       else (Cleanup.Ok d1, d1) in
             r2 = (Cleanup.Ok d1, d1) /\ TempFiles.existsSync i d1 = false
             \/ r2 = (Cleanup.Throw, d1) /\ TempFiles.existsSync i d1 = true
                /\ Cleanup.rm i d1 = Cleanup.Throw
             \/ r2 = (Cleanup.Ok (Cleanup.remove i d1), Cleanup.remove i d1)
                /\ TempFiles.existsSync i d1 = true).
  { intros d1. cbv zeta. destruct (TempFiles.existsSync i d1) eqn:Ei; [|auto].
    destruct (rm_cases i d1 Ei) as [-> | ->]; auto. }
  destruct (TempFiles.existsSync t d) eqn:Et.
  - destruct (unlink_cases t d) as [-> | ->]; [now right|].
    left. exists (Cleanup.remove t d). split; [now right | apply Hsecond].
  - left. exists d. split; [now left | apply Hsecond].
Qed.

(** When the staged file exists and cannot be unlinked, the exception
    ends the [try] block before the image directory is looked at. *)
Lemma cleanupTempFiles_failed_unlink
      (tempFilePath imageDir : string) (d : TempFiles.store) :
  TempFiles.existsSync tempFilePath d = true ->
  Cleanup.unlink tempFilePath d = Cleanup.Throw ->
  TempFiles.cleanupTempFiles tempFilePath imageDir d = d.
Proof.
  intros Hex Hun. unfold TempFiles.cleanupTempFiles, TempFiles.removeBoth.
  now rewrite Hex, Hun.
Qed.

(** X12: [cleanupTempFiles] touches nothing but its two targets, and
    calling it a second time changes nothing more; when no call in it
    throws, neither target exists afterwards; when the staged file
    exists and cannot be unlinked, nothing is removed at all, the image
    directory included. *)
Theorem cleanupTempFiles_is_local_and_idempotent
        (tempFilePath imageDir : string) (d : TempFiles.store) :
  let d' := TempFiles.cleanupTempFiles tempFilePath imageDir d in
  (forall p, p <> tempFilePath -> p <> imageDir ->
             Cleanup.lookup p d' = Cleanup.lookup p d)
  /\ TempFiles.cleanupTempFiles tempFilePath imageDir d' = d'
  /\ (fst (TempFiles.removeBoth tempFilePath imageDir d) = Cleanup.Ok d' ->
      TempFiles.existsSync tempFilePath d' = false
      /\ TempFiles.existsSync imageDir d' = false)
  /\ (TempFiles.existsSync tempFilePath d = true ->
      Cleanup.unlink tempFilePath d = Cleanup.Throw -> d' = d).
Proof.
  cbv zeta.
  assert (Hlast : TempFiles.existsSync tempFilePath d = true ->
                  Cleanup.unlink tempFilePath d = Cleanup.Throw ->
                  TempFiles.cleanupTempFiles tempFilePath imageDir d = d)
    by apply cleanupTempFiles_failed_unlink.
  cut ((forall p, p <> tempFilePath -> p <> imageDir ->
          Cleanup.lookup p (TempFiles.cleanupTempFiles tempFilePath imageDir d)
          = Cleanup.lookup p d)
       /\ TempFiles.cleanupTempFiles tempFilePath imageDir
            (TempFiles.cleanupTempFiles tempFilePath imageDir d)
          = TempFiles.cleanupTempFiles tempFilePath imageDir d
       /\ (fst (TempFiles.removeBoth tempFilePath imageDir d)
           = Cleanup.Ok (TempFiles.cleanupTempFiles tempFilePath imageDir d) ->
           TempFiles.existsSync tempFilePath
             (TempFiles.cleanupTempFiles tempFilePath imageDir d) = false
           /\ TempFiles.existsSync imageDir
                (TempFiles.cleanupTempFiles tempFilePath imageDir d) = false));
    [tauto|].
  clear Hlast. unfold TempFiles.cleanupTempFiles.
  set (t := tempFilePath). set (i := imageDir).
  assert (Hti : forall d0, TempFiles.existsSync t d0 = false ->
                           TempFiles.existsSync i d0 = true -> t <> i)
    by (intros d0 H1 H2 E; rewrite E in H1; congruence).
  assert (Hkeep : forall d0, TempFiles.existsSync t d0 = false ->
                             TempFiles.existsSync i d0 = true ->
                             TempFiles.existsSync t (Cleanup.remove i d0) = false).
  { intros d0 H1 H2. rewrite existsSync_remove_other; eauto. }
  assert (Ht1 : forall d1, (d1 = d /\ TempFiles.existsSync t d = false
                            \/ d1 = Cleanup.remove t d
                               /\ TempFiles.existsSync t d = true) ->
                           TempFiles.existsSync t d1 = false).
  { intros d1 [[-> H] | [-> _]]; [exact H | apply existsSync_removed]. }
  assert (Hl1 : forall d1 p, p <> t ->
                  (d1 = d /\ TempFiles.existsSync t d = false
                   \/ d1 = Cleanup.remove t d /\ TempFiles.existsSync t d = true) ->
                  Cleanup.lookup p d1 = Cleanup.lookup p d).
  { intros d1 p Hp [[-> _] | [-> _]]; [reflexivity|].
    now apply lookup_remove_other. }
  destruct (removeBoth_cases t i d)
    as [(d1 & Hd1 & [[E Hi] | [(E & Hi & Hrm) | [E Hi]]]) | (E & Het & Hun)];
    rewrite E; cbn [fst snd]; pose proof (Ht1 d1 Hd1) as Hnot || idtac.
  - split; [intros p Hp _; now apply Hl1|]. split; [|auto].
    unfold TempFiles.removeBoth. now rewrite Hnot, Hi.
  - split; [intros p Hp _; now apply Hl1|]. split; [|discriminate].
    unfold TempFiles.removeBoth. now rewrite Hnot, Hi, Hrm.
  - split; [|split].
    + intros p Hp Hpi. rewrite lookup_remove_other by exact Hpi.
      now apply Hl1.
    + unfold TempFiles.removeBoth.
      now rewrite (Hkeep d1 Hnot Hi), existsSync_removed.
    + intros _. split; [now apply Hkeep | apply existsSync_removed].
  - split; [reflexivity|]. split; [|discriminate].
    unfold TempFiles.removeBoth. now rewrite Het, Hun.
Qed.

Lemma cleanupTempFiles_is_local_and_idempotent_witness :
  let d := [("/t/17-ab-report.docx", Cleanup.mkNode 5 Cleanup.RegularFile false);
            ("/t/17-ab-images", Cleanup.mkNode 5 Cleanup.Directory false);
            ("/t/18-cd-images", Cleanup.mkNode 6 Cleanup.Directory false)] in
  let stuck :=
    [("/t/17-ab-report.docx", Cleanup.mkNode 5 Cleanup.RegularFile true);
     ("/t/17-ab-images", Cleanup.mkNode 5 Cleanup.Directory false)] in
  TempFiles.cleanupTempFiles "/t/17-ab-report.docx" "/t/17-ab-images" d
  = [("/t/18-cd-images", Cleanup.mkNode 6 Cleanup.Directory false)]
  /\ TempFiles.existsSync "/t/17-ab-images"
       (TempFiles.cleanupTempFiles "/t/17-ab-report.docx" "/t/17-ab-images" d)
     = false
  /\ Cleanup.rm "/t/17-ab-images" stuck
     = Cleanup.Ok [("/t/17-ab-report.docx",
                    Cleanup.mkNode 5 Cleanup.RegularFile true)]
  /\ TempFiles.cleanupTempFiles "/t/17-ab-report.docx" "/t/17-ab-images" stuck
     = stuck.
Proof.
  cbv zeta. split; [reflexivity|]. split; [|split; [reflexivity|]].
  - apply (cleanupTempFiles_is_local_and_idempotent
             "/t/17-ab-report.docx" "/t/17-ab-images"). reflexivity.
  - apply (cleanupTempFiles_is_local_and_idempotent
             "/t/17-ab-report.docx" "/t/17-ab-images"); reflexivity.
Defined.

(** ** The opportunistic trigger *)

Lemma spaced_cons (gap a b : Z) (l : list Z) :
  Middleware.spaced gap (a :: b :: l)
  = (b - a >? gap) && Middleware.spaced gap (b :: l).
Proof. reflexivity. Qed.

Lemma last_cons_default {A} (l : list A) (a d : A) :
  List.last (a :: l) d = List.last l a.
Proof.
  revert a d. induction l as [|b l IH]; intros a d; [reflexivity|].
  change (List.last (a :: b :: l) d) with (List.last (b :: l) d).
  rewrite IH. symmetry. apply IH.
Qed.

Lemma serve_spaced (times : list Z) :
  forall last,
    Middleware.spaced Middleware.CLEANUP_INTERVAL
      (last :: fst (Middleware.serve times last)) = true
    /\ snd (Middleware.serve times last)
       = List.last (fst (Middleware.serve times last)) last
    /\ (forall t, In t (fst (Middleware.serve times last)) -> In t times).
Proof.
  induction times as [|now rest IH]; intros last.
  - cbn. auto.
  - cbn [Middleware.serve]. unfold Middleware.middleware.
    destruct (Z.gtb_spec (now - last) Middleware.CLEANUP_INTERVAL) as [Hgt | Hle].
    + destruct (IH now) as (Hs & Hl & Hin).
      destruct (Middleware.serve rest now) as [triggers last2].
      cbn [fst snd] in *. split; [|split].
      * rewrite spaced_cons, Hs, andb_true_r. now apply Z.gtb_lt.
      * rewrite Hl. symmetry. apply last_cons_default.
      * intros t [<- | Ht]; [now left | right; auto].
    + destruct (IH last) as (Hs & Hl & Hin).
      destruct (Middleware.serve rest last) as [triggers last2].
      cbn [fst snd] in *. split; [exact Hs|]. split; [exact Hl|].
      intros t Ht. right. auto.
Qed.

(** X13: whatever the arrival times of the requests, two successive
    clean-up triggers are more than 30 minutes apart, the first one more
    than 30 minutes after the initial [lastCleanup]; every trigger
    happens at the time of some request, and [lastCleanup] ends as the
    time of the last trigger.  With [lastCleanup] starting at 0, a first
    request later than 30 minutes after the epoch always triggers. *)
Theorem cleanup_triggers_are_spaced (times : list Z) (lastCleanup : Z) :
  let triggers := fst (Middleware.serve times lastCleanup) in
  Middleware.spaced Middleware.CLEANUP_INTERVAL (lastCleanup :: triggers) = true
  /\ snd (Middleware.serve times lastCleanup) = List.last triggers lastCleanup
  /\ (forall t, In t triggers -> In t times)
  /\ (forall now rest, now > Middleware.CLEANUP_INTERVAL ->
        hd_error (fst (Middleware.serve (now :: rest) 0)) = Some now).
Proof.
  cbv zeta. destruct (serve_spaced times lastCleanup) as (H1 & H2 & H3).
  split; [exact H1|]. split; [exact H2|]. split; [exact H3|].
  intros now rest Hnow. cbn [Middleware.serve]. unfold Middleware.middleware.
  destruct (Z.gtb_spec (now - 0) Middleware.CLEANUP_INTERVAL); [|lia].
  now destruct (Middleware.serve rest now).
Qed.

Lemma cleanup_triggers_are_spaced_witness :
  1755063487275 > Middleware.CLEANUP_INTERVAL
  /\ hd_error (fst (Middleware.serve [1755063487275; 1755063487999] 0))
     = Some 1755063487275
  /\ In 1755063487275 [1755063487275; 1755063487999].
Proof.
  assert (H : 1755063487275 > Middleware.CLEANUP_INTERVAL)
    by (unfold Middleware.CLEANUP_INTERVAL; lia).
  destruct (cleanup_triggers_are_spaced [1755063487275; 1755063487999] 0)
    as (_ & _ & Hin & Hfirst).
  split; [exact H|]. split; [exact (Hfirst _ _ H)|].
  apply Hin. cbn. now left.
Defined.

Example middleware_run :
  Middleware.serve [1755063487275; 1755063487999; 1755065287275;
                    1755065287276; 1755065287000; 1755067087277] 0
  = ([1755063487275; 1755065287276; 1755067087277], 1755067087277).
Proof. reflexivity. Qed.

(** ** The prefix check of the packager *)

Lemma prefix_refl (a : string) : String.prefix a a = true.
Proof.
  rewrite <- (append_empty_r a) at 2. apply prefix_append.
Qed.

Lemma prefix_shorter (a x s : string) :
  String.prefix (a ++ x) s = true -> String.prefix a s = true.
Proof.
  revert s. induction a as [|c a IH]; intros s.
  - intros _. now destruct s.
  - destruct s as [|d s]; cbn [append String.prefix]; [auto|].
    destruct (ascii_dec c d); [apply IH | auto].
Qed.

(** X14: the path check of the packager is no more than a string-prefix
    test against the image directory: the two stricter tests are
    subsumed by the lenient one, so a path in a sibling directory whose
    name merely starts with the image directory's name passes too. *)
Theorem pathCheck_is_a_string_prefix_test
        (normalizedImagePath normalizedImageDir : string) :
  Convert.pathCheckPasses normalizedImagePath normalizedImageDir
  = Js.startsWith normalizedImagePath normalizedImageDir.
Proof.
  unfold Convert.pathCheckPasses, Js.startsWith.
  destruct (String.prefix normalizedImageDir normalizedImagePath) eqn:E;
    [now rewrite orb_true_r|].
  rewrite orb_false_r.
  destruct (String.prefix (normalizedImageDir ++ Path.sep) normalizedImagePath)
    eqn:E1.
  - apply prefix_shorter in E1. congruence.
  - destruct (String.eqb_spec normalizedImagePath normalizedImageDir) as [->|];
      [|reflexivity].
    now rewrite prefix_refl in E.
Qed.

Example pathCheck_sibling_directory :
  Convert.pathCheckPasses "/srv/app/temp/17-ab-images-old/x.png"
                          "/srv/app/temp/17-ab-images" = true.
Proof. reflexivity. Qed.

(** ** From the page to the converter *)

Lemma notFalse_false_iff (v : option Convert.formValue) :
  Convert.notFalse v = false
  <-> exists s, v = Some (Convert.FormString s) /\ Js.toLowerCase s = "false".
Proof.
  unfold Convert.notFalse, Convert.lowered.
  destruct v as [[s|]|].
  - rewrite negb_false_iff, String.eqb_eq. split.
    + intros H. now exists s.
    + now intros (s' & [= <-] & H).
  - split; [discriminate | now intros (s' & [=] & _)].
  - split; [discriminate | now intros (s' & [=] & _)].
Qed.

(** X15: image and chart extraction are on by default and are switched
    off only by a text field that reads [false] in some letter case: an
    absent field, a file, or any other text leaves them on.  The form
    the page submits therefore reaches the converter unchanged:
    [extractImages] as its check box is set, [extractCharts] and
    [preserveLayout] true. *)
Theorem extraction_flags_default_on
        (tempDir id : string) (form : Convert.Form) :
  let options := Convert.convertOptions tempDir id form in
  (Convert.extractImages options = false
   <-> exists s, Convert.f_extractImages form = Some (Convert.FormString s)
                 /\ Js.toLowerCase s = "false")
  /\ (Convert.extractCharts options = false
      <-> exists s, Convert.f_extractCharts form = Some (Convert.FormString s)
                    /\ Js.toLowerCase s = "false")
  /\ forall checked : bool,
       let sent := Convert.convertOptions tempDir id (Page.handleConvert checked) in
       Convert.extractImages sent = checked
       /\ Convert.extractCharts sent = true
       /\ Convert.preserveLayout sent = true.
Proof.
  cbv zeta. cbn [Convert.convertOptions Convert.extractImages
                 Convert.extractCharts].
  split; [apply notFalse_false_iff|]. split; [apply notFalse_false_iff|].
  intros checked. now destruct checked.
Qed.

Example extraction_flags_examples :
  Convert.notFalse None = true
  /\ Convert.notFalse (Some (Convert.FormString "FALSE")) = false
  /\ Convert.notFalse (Some (Convert.FormString "0")) = true
  /\ Convert.notFalse (Some Convert.FormFile) = true.
Proof. repeat split; reflexivity. Qed.

(** ** Content type of a served image *)

Lemma basename_noSlash_id (p : string) :
  noSlash p = true -> Path.basename p = p.
Proof.
  intros H. unfold Path.basename. rewrite (split_noSlash _ H).
  cbn [filter]. now destruct p.
Qed.

Lemma lastIndexOf_absent (s : string) :
  noDot s = true -> Upload.lastIndexOf Js.dot s = -1.
Proof. intros H. unfold Upload.lastIndexOf. now apply lastIndexFrom_absent. Qed.

Lemma extname_last (stem e : string) :
  noSlash (stem ++ "." ++ e) = true -> noDot e = true ->
  ContentType.extname (stem ++ "." ++ e)
  = if Js.isEmpty stem || (stem ++ "." ++ e =? "..")%string then ""
    else "." ++ e.
Proof.
  intros Hns Hnd. unfold ContentType.extname.
  rewrite (basename_noSlash_id _ Hns), lastIndexOf_last by exact Hnd.
  destruct stem as [|c stem]; [reflexivity|].
  cbn [Js.isEmpty orb].
  destruct (Z.leb_spec (Z.of_nat (String.length (String c stem))) 0)
    as [Hle | _]; [cbn in Hle; lia|].
  cbn [orb]. destruct (_ =? "..")%string; [reflexivity|].
  apply slice_at_length.
Qed.

(** Every name has no dot at all, or splits at its last dot. *)
Lemma last_dot_cases (n : string) :
  noDot n = true
  \/ exists stem e, n = stem ++ "." ++ e /\ noDot e = true.
Proof.
  induction n as [|c n IH]; [now left|].
  destruct IH as [Hnd | (stem & e & -> & He)].
  - destruct (Ascii.eqb_spec c Js.dot) as [-> | Hc].
    + right. exists "", n. auto.
    + left. unfold noDot in *. cbn [Js.all]. rewrite Hnd, andb_true_r.
      apply negb_true_iff. now apply Ascii.eqb_neq.
  - right. exists (String c stem), e. auto.
Qed.

(** X16: the content type of a served file is decided by the letters
    after the last dot of its name, whatever their case, provided that
    dot is not the first character of the name: [jpg] and [jpeg] give
    [image/jpeg], [gif] gives [image/gif], [webp] gives [image/webp].
    Every other name is served as [image/png]: one with another
    extension, one without a dot, and one whose last dot is its first
    character, such as [.jpg].  Every name is of one of these forms. *)
Theorem contentType_by_extension :
  (forall stem e,
      noSlash (stem ++ "." ++ e) = true -> noDot e = true ->
      ContentType.contentType (stem ++ "." ++ e)
      = let x := Js.toLowerCase e in
        if Js.isEmpty stem then "image/png"
        else if (x =? "jpg")%string || (x =? "jpeg")%string then "image/jpeg"
        else if (x =? "gif")%string then "image/gif"
        else if (x =? "webp")%string then "image/webp"
        else "image/png")
  /\ (forall n, noSlash n = true -> noDot n = true ->
                ContentType.contentType n = "image/png")
  /\ (forall n, noDot n = true
                \/ exists stem e, n = stem ++ "." ++ e /\ noDot e = true).
Proof.
  split; [|split; [|exact last_dot_cases]].
  - intros stem e Hns Hnd. unfold ContentType.contentType.
    rewrite (extname_last stem e Hns Hnd).
    destruct stem as [|c stem]; [reflexivity|].
    cbn [Js.isEmpty orb].
    destruct (String.eqb_spec (String c stem ++ "." ++ e) "..") as [E | _];
      [|reflexivity].
    cbn [append] in E. injection E as -> E.
    destruct stem as [|c stem]; cbn [append] in E;
      [injection E as ->; reflexivity|].
    injection E as _ E. now destruct stem.
  - intros n Hns Hnd. unfold ContentType.contentType, ContentType.extname.
    now rewrite (basename_noSlash_id _ Hns), (lastIndexOf_absent _ Hnd).
Qed.

Lemma contentType_by_extension_witness :
  ContentType.contentType "photo.final.JPeG" = "image/jpeg"
  /\ ContentType.contentType ".jpg" = "image/png"
  /\ ContentType.contentType "LICENSE" = "image/png".
Proof.
  split; [|split].
  - apply (proj1 contentType_by_extension "photo.final" "JPeG"); reflexivity.
  - apply (proj1 contentType_by_extension "" "jpg"); reflexivity.
  - apply (proj1 (proj2 contentType_by_extension) "LICENSE"); reflexivity.
Defined.

Example contentType_edge_cases :
  ContentType.contentType "chart.svg" = "image/png"
  /\ ContentType.contentType ".gif" = "image/png"
  /\ ContentType.contentType "a.gif." = "image/png"
  /\ ContentType.contentType "anim.GIF" = "image/gif"
  /\ ContentType.contentType "p.webp" = "image/webp".
Proof. repeat split; reflexivity. Qed.

(** ** Escaping a text for use in a regular expression *)

Lemma unescape_escape (s : string) :
  RegExp.unescape (RegExp.escapeRegExp s) = s.
Proof.
  unfold RegExp.unescape. induction s as [|c s IH]; [reflexivity|].
  cbn [RegExp.escapeRegExp]. destruct (RegExp.special c) eqn:E.
  - cbn [RegExp.unescapeFrom]. rewrite Ascii.eqb_refl. cbn [RegExp.unescapeFrom].
    now rewrite IH.
  - cbn [RegExp.unescapeFrom].
    destruct (Ascii.eqb_spec c "\"%char) as [-> | _]; [discriminate|].
    now rewrite IH.
Qed.

Lemma escape_length (s : string) :
  (String.length s <= String.length (RegExp.escapeRegExp s))%nat.
Proof.
  induction s as [|c s IH]; [reflexivity|].
  cbn [RegExp.escapeRegExp]. destruct (RegExp.special c); cbn [String.length]; lia.
Qed.

(** X17: [escapeRegExp] loses nothing: reading the backslashes of its
    result back gives the text it was applied to, so different texts are
    escaped differently; and it leaves a text unchanged exactly when the
    text holds none of the fourteen special characters. *)
Theorem escapeRegExp_round_trip (s : string) :
  RegExp.unescape (RegExp.escapeRegExp s) = s
  /\ (forall t, RegExp.escapeRegExp s = RegExp.escapeRegExp t -> s = t)
  /\ (RegExp.escapeRegExp s = s
      <-> Js.all (fun c => negb (RegExp.special c)) s = true).
Proof.
  split; [apply unescape_escape|]. split.
  - intros t E. rewrite <- (unescape_escape s), <- (unescape_escape t).
    now rewrite E.
  - induction s as [|c s IH]; [easy|].
    cbn [RegExp.escapeRegExp Js.all].
    destruct (RegExp.special c) eqn:E; cbn [negb andb].
    + split; [|discriminate]. intros H. injection H as _ H.
      pose proof (escape_length s) as Hlen.
      apply (f_equal String.length) in H. cbn [String.length] in H. lia.
    + rewrite <- IH. split; [now intros [= ->] | now intros ->].
Qed.

Lemma escapeRegExp_round_trip_witness :
  Js.all (fun c => negb (RegExp.special c)) "plain-text_1" = true
  /\ RegExp.escapeRegExp "plain-text_1" = "plain-text_1"
  /\ RegExp.unescape (RegExp.escapeRegExp "price: $5.00 (net)")
     = "price: $5.00 (net)".
Proof.
  split; [reflexivity|]. split.
  - apply (proj2 (proj2 (escapeRegExp_round_trip "plain-text_1"))). reflexivity.
  - exact (proj1 (escapeRegExp_round_trip "price: $5.00 (net)")).
Defined.

Example escapeRegExp_example :
  RegExp.escapeRegExp "a.b*(c)[d]\e" = "a\.b\*\(c\)\[d\]\\e".
Proof. reflexivity. Qed.

(** ** The clean-up endpoint *)

Lemma cleanIfExists_invariant (now : Z) (dir : option Cleanup.directory) :
  match dir with
  | Some d => NoDup (Cleanup.readdir d)
  | None => True
  end ->
  let entries o := match o with Some d => d | None => [] end in
  let '(count, dir') := Cleanup.cleanIfExists now dir in
  (count + List.length (entries dir') = List.length (entries dir))%nat
  /\ (forall e, In e (entries dir) ->
                now - Cleanup.mtime (snd e) <= Cleanup.CLEANUP_AGE_MS ->
                In e (entries dir'))
  /\ (dir = None <-> dir' = None).
Proof.
  destruct dir as [d|]; cbn [Cleanup.cleanIfExists]; [|cbn; tauto].
  intros Hnd. unfold Cleanup.cleanDirectory.
  pose proof (sweep_invariant now (Cleanup.readdir d) d 0 Hnd) as H.
  destruct (Cleanup.sweep now (Cleanup.readdir d) d 0) as [count d'].
  destruct H as (Hc & _ & Hk). cbn [Nat.add] in Hc.
  repeat split; auto; discriminate.
Qed.

(** X18: the number the clean-up endpoint reports is the number of
    entries that disappeared from the downloads and the temporary
    directory together; no entry within the retention window is removed
    from either; a directory that does not exist is not created. *)
Theorem cleanup_POST_counts_and_keeps
        (now : Z) (downloads temp : Cleanup.directory) :
  NoDup (Cleanup.readdir downloads) -> NoDup (Cleanup.readdir temp) ->
  (exists downloads' temp',
      snd (Cleanup.POST now (Cleanup.mkWorld (Some downloads) (Some temp)))
      = Cleanup.mkWorld (Some downloads') (Some temp')
      /\ (fst (Cleanup.POST now (Cleanup.mkWorld (Some downloads) (Some temp)))
          + List.length downloads' + List.length temp'
          = List.length downloads + List.length temp)%nat
      /\ (forall e, In e downloads ->
                    now - Cleanup.mtime (snd e) <= Cleanup.CLEANUP_AGE_MS ->
                    In e downloads')
      /\ (forall e, In e temp ->
                    now - Cleanup.mtime (snd e) <= Cleanup.CLEANUP_AGE_MS ->
                    In e temp'))
  /\ Cleanup.POST now (Cleanup.mkWorld None None)
     = (0%nat, Cleanup.mkWorld None None)
  /\ Cleanup.tempDir
       (snd (Cleanup.POST now (Cleanup.mkWorld (Some downloads) None))) = None.
Proof.
  intros Hd Ht. split; [|split; [reflexivity|]].
  2:{ unfold Cleanup.POST.
      cbn [Cleanup.downloadsDir Cleanup.tempDir Cleanup.cleanIfExists].
      now destruct (Cleanup.cleanDirectory now downloads). }
  unfold Cleanup.POST. cbn [Cleanup.downloadsDir Cleanup.tempDir].
  pose proof (cleanIfExists_invariant now (Some downloads) Hd) as H1.
  pose proof (cleanIfExists_invariant now (Some temp) Ht) as H2.
  cbn [Cleanup.cleanIfExists] in *.
  destruct (Cleanup.cleanDirectory now downloads) as [n1 downloads'].
  destruct (Cleanup.cleanDirectory now temp) as [n2 temp'].
  cbv zeta in H1, H2. destruct H1 as (Hc1 & Hk1 & _), H2 as (Hc2 & Hk2 & _).
  exists downloads', temp'. cbn [fst snd]. repeat split; auto. lia.
Qed.

Lemma cleanup_POST_counts_and_keeps_witness :
  let downloads := [("a__1-x.zip", Cleanup.mkNode 0 Cleanup.RegularFile false);
                    ("b__2-y.md", Cleanup.mkNode 7000000 Cleanup.RegularFile false)] in
  let temp := [("1-x-images", Cleanup.mkNode 0 Cleanup.Directory false)] in
  Cleanup.POST 7200000 (Cleanup.mkWorld (Some downloads) (Some temp))
  = (2%nat,
     Cleanup.mkWorld
       (Some [("b__2-y.md", Cleanup.mkNode 7000000 Cleanup.RegularFile false)])
       (Some []))
  /\ exists downloads' temp',
       snd (Cleanup.POST 7200000 (Cleanup.mkWorld (Some downloads) (Some temp)))
       = Cleanup.mkWorld (Some downloads') (Some temp')
       /\ In ("b__2-y.md", Cleanup.mkNode 7000000 Cleanup.RegularFile false)
             downloads'.
Proof.
  cbv zeta. split; [reflexivity|].
  destruct (cleanup_POST_counts_and_keeps 7200000
              [("a__1-x.zip", Cleanup.mkNode 0 Cleanup.RegularFile false);
               ("b__2-y.md", Cleanup.mkNode 7000000 Cleanup.RegularFile false)]
              [("1-x-images", Cleanup.mkNode 0 Cleanup.Directory false)])
    as [(downloads' & temp' & E & _ & Hk & _) _].
  - cbn. repeat constructor; cbn; intuition discriminate.
  - cbn. repeat constructor; cbn; intuition discriminate.
  - exists downloads', temp'. split; [exact E|].
    apply Hk; [cbn; tauto | cbn; unfold Cleanup.CLEANUP_AGE_MS; lia].
Defined.

(** ** Where the download is written *)






